(** * INFLXD transcription client: session state, job history and request layer

    A shallow embedding of [streamlit_app.py].  The Streamlit session state
    ([st.session_state]) is an explicit record; the job dictionaries, which
    Python shares by reference between the session list and the per-user
    archive, live in an explicit store of objects; handlers are computations
    in a small state-and-exception monad that also collects the user-visible
    effects ([st.error], [time.sleep], [st.rerun], ...). *)

From Stdlib Require Import ZArith Ascii String List Lia.
From stdpp Require Import base tactics option list gmap strings pretty.

Local Open Scope string_scope.
Local Open Scope list_scope.
Local Open Scope nat_scope.

(** ** [hashlib.md5]

    [get_user_hash] calls the MD5 of the Python standard library; it is
    written out here (RFC 1321) on 32-bit words held in [Z], so that the
    user identifier of a concrete token can be computed. *)

Module MD5.

Local Open Scope Z_scope.

Definition mask32 : Z := 4294967295.

Definition add32 (a b : Z) : Z := Z.land (a + b) mask32.

Definition not32 (a : Z) : Z := Z.lxor a mask32.

Definition rotl32 (x c : Z) : Z :=
  Z.land (Z.lor (Z.shiftl x c) (Z.shiftr x (32 - c))) mask32.

(** [K i = floor (2^32 * |sin (i + 1)|)] *)
Definition K : list Z :=
  [ 3614090360; 3905402710; 606105819; 3250441966;
    4118548399; 1200080426; 2821735955; 4249261313;
    1770035416; 2336552879; 4294925233; 2304563134;
    1804603682; 4254626195; 2792965006; 1236535329;
    4129170786; 3225465664; 643717713; 3921069994;
    3593408605; 38016083; 3634488961; 3889429448;
    568446438; 3275163606; 4107603335; 1163531501;
    2850285829; 4243563512; 1735328473; 2368359562;
    4294588738; 2272392833; 1839030562; 4259657740;
    2763975236; 1272893353; 4139469664; 3200236656;
    681279174; 3936430074; 3572445317; 76029189;
    3654602809; 3873151461; 530742520; 3299628645;
    4096336452; 1126891415; 2878612391; 4237533241;
    1700485571; 2399980690; 4293915773; 2240044497;
    1873313359; 4264355552; 2734768916; 1309151649;
    4149444226; 3174756917; 718787259; 3951481745 ].

Definition R : list Z :=
  [ 7; 12; 17; 22; 7; 12; 17; 22; 7; 12; 17; 22; 7; 12; 17; 22;
    5; 9; 14; 20; 5; 9; 14; 20; 5; 9; 14; 20; 5; 9; 14; 20;
    4; 11; 16; 23; 4; 11; 16; 23; 4; 11; 16; 23; 4; 11; 16; 23;
    6; 10; 15; 21; 6; 10; 15; 21; 6; 10; 15; 21; 6; 10; 15; 21 ].

Definition state : Type := Z * Z * Z * Z.

Definition init : state := (1732584193, 4023233417, 2562383102, 271733878).

(** the bytes [x & 0xff], [(x >> 8) & 0xff], ... (little endian) *)
Definition le_bytes (n : nat) (x : Z) : list Z :=
  map (fun i => Z.land (Z.shiftr x (8 * Z.of_nat i)) 255) (seq 0 n).

Definition pad (msg : list Z) : list Z :=
  let len := length msg in
  msg ++ [128] ++ repeat 0 (Nat.modulo (119 - Nat.modulo len 64) 64)
      ++ le_bytes 8 (8 * Z.of_nat len).

Fixpoint words (bs : list Z) : list Z :=
  match bs with
  | b0 :: b1 :: b2 :: b3 :: rest =>
      (b0 + 256 * b1 + 65536 * b2 + 16777216 * b3) :: words rest
  | _ => []
  end.

Definition round (M : list Z) (st : state) (i : nat) : state :=
  let '(a, b, c, d) := st in
  let '(f, g) :=
    if Nat.ltb i 16 then (Z.lor (Z.land b c) (Z.land (not32 b) d), i)
    else if Nat.ltb i 32 then
      (Z.lor (Z.land d b) (Z.land (not32 d) c), Nat.modulo (5 * i + 1) 16)
    else if Nat.ltb i 48 then
      (Z.lxor b (Z.lxor c d), Nat.modulo (3 * i + 5) 16)
    else (Z.lxor c (Z.lor b (not32 d)), Nat.modulo (7 * i) 16) in
  let f' := add32 (add32 (add32 f a) (nth i K 0)) (nth g M 0) in
  (d, add32 b (rotl32 f' (nth i R 0)), b, c).

Definition block (M : list Z) (st : state) : state :=
  let '(a0, b0, c0, d0) := st in
  let '(a, b, c, d) := fold_left (round M) (seq 0 64) st in
  (add32 a0 a, add32 b0 b, add32 c0 c, add32 d0 d).

Fixpoint blocks (n : nat) (ws : list Z) (st : state) : state :=
  match n with
  | O => st
  | S n' => blocks n' (drop 16 ws) (block (take 16 ws) st)
  end.

Definition digest (msg : list Z) : state :=
  let ws := words (pad msg) in
  blocks (Nat.div (length ws) 16) ws init.

Definition hex_digit (n : Z) : ascii :=
  nth (Z.to_nat n) (list_ascii_of_string "0123456789abcdef") "0"%char.

Definition hex_byte (b : Z) : list ascii :=
  [hex_digit (Z.shiftr b 4); hex_digit (Z.land b 15)].

Definition hex_of_state (st : state) : string :=
  let '(a, b, c, d) := st in
  string_of_list_ascii
    (flat_map hex_byte
       (le_bytes 4 a ++ le_bytes 4 b ++ le_bytes 4 c ++ le_bytes 4 d)).

(** [hashlib.md5(bs).hexdigest()] *)
Definition hexdigest (msg : list Z) : string := hex_of_state (digest msg).

End MD5.

(** [token.encode()]: the token is held as its UTF-8 bytes. *)
Definition encode (token : string) : list Z :=
  map (fun a => Z.of_nat (nat_of_ascii a)) (list_ascii_of_string token).

(** [get_user_hash]: [hashlib.md5(token.encode()).hexdigest()[:16]] *)
Definition get_user_hash (token : string) : string :=
  substring 0 16 (MD5.hexdigest (encode token)).

(** ** Python values and the job dictionaries *)

(** The JSON scalars a response body can hold under the keys the program
    reads. *)
Inductive pyval :=
  | PNone
  | PBool (b : bool)
  | PInt (n : Z)
  | PStr (s : string).

#[global] Instance pyval_eq_dec : EqDecision pyval.
Proof. solve_decision. Defined.

(** A parsed JSON object ([response.json()]). *)
Abbreviation dict := (gmap string pyval).

(** The dictionary [job_entry] built by [save_job_to_history].  Every such
    dictionary has exactly these five keys, and the only later write is to
    ["status"], so it is a record. *)
Record job_entry := JobEntry {
  e_id : pyval;
  e_title : pyval;
  e_company : pyval;
  e_submitted_at : string;
  e_status : pyval
}.

#[global] Instance job_entry_eq_dec : EqDecision job_entry.
Proof. solve_decision. Defined.

(** [job['status'] = v] *)
Definition set_status (v : pyval) (e : job_entry) : job_entry :=
  {| e_id := e_id e; e_title := e_title e; e_company := e_company e;
     e_submitted_at := e_submitted_at e; e_status := v |}.

(** A reference to a dictionary object: its index in the store. *)
Abbreviation ref := nat.

(** ** Session state

    [st.session_state], together with the store of the job dictionaries.
    The two histories are Python lists of references to those
    dictionaries: [insert(0, job_entry)] puts the same object in both, and
    [.copy()] and the slices [[:20]], [[:100]] build new lists of the same
    objects.  The list objects themselves are never shared (every
    assignment to [job_history] is a fresh list), so they are values. *)
Record session := Session {
  api_token : option string;
  job_history : list ref;
  global_history : gmap string (list ref);
  current_user_hash : option string;
  objects : list job_entry
}.

(** the state after the initialisation block at the top of the script *)
Definition initial : session :=
  {| api_token := None; job_history := []; global_history := ∅;
     current_user_hash := None; objects := [] |}.

Definition set_api_token (v : option string) (s : session) : session :=
  {| api_token := v; job_history := job_history s;
     global_history := global_history s;
     current_user_hash := current_user_hash s; objects := objects s |}.

Definition set_job_history (v : list ref) (s : session) : session :=
  {| api_token := api_token s; job_history := v;
     global_history := global_history s;
     current_user_hash := current_user_hash s; objects := objects s |}.

Definition set_global_history (v : gmap string (list ref)) (s : session)
  : session :=
  {| api_token := api_token s; job_history := job_history s;
     global_history := v;
     current_user_hash := current_user_hash s; objects := objects s |}.

Definition set_current_user_hash (v : option string) (s : session) : session :=
  {| api_token := api_token s; job_history := job_history s;
     global_history := global_history s;
     current_user_hash := v; objects := objects s |}.

Definition set_objects (v : list job_entry) (s : session) : session :=
  {| api_token := api_token s; job_history := job_history s;
     global_history := global_history s;
     current_user_hash := current_user_hash s; objects := v |}.

(** Truth value of a string: [if api_key_input:], [if job_id:]. *)
Definition truthy (x : string) : bool :=
  match x with EmptyString => false | String _ _ => true end.

(** Truth value of [st.session_state.current_user_hash]: it is set and
    not the empty string. *)
Definition user_key (s : session) : option string :=
  match current_user_hash s with
  | Some h => if truthy h then Some h else None
  | None => None
  end.

(** ** Exceptions, effects and the handler monad *)

Inductive exn :=
  | KeyError (key : string)
  | ValueError (msg : string)
  | AttributeError (msg : string)
  | RequestException (msg : string).

(** [str(e)] *)
Definition str_exn (e : exn) : string :=
  match e with
  | KeyError k => "'" +:+ k +:+ "'"
  | ValueError m | AttributeError m | RequestException m => m
  end.

Inductive effect :=
  | st_error (msg : string)
  | st_warning (msg : string)
  | st_success (msg : string)
  | time_sleep (secs : Z)
  | st_rerun.

#[global] Instance effect_eq_dec : EqDecision effect.
Proof. solve_decision. Defined.

(** A handler runs on a session state and ends with a value or an
    uncaught exception, the state it left and what it showed or did. *)
Definition M (A : Type) : Type := session → (exn + A) * session * list effect.

#[global] Instance M_ret : MRet M := λ A a s, (inr a, s, []).

#[global] Instance M_bind : MBind M := λ A B f m s,
  match m s with
  | (inl e, s', out) => (inl e, s', out)
  | (inr a, s', out) =>
      match f a s' with (r, s'', out') => (r, s'', out ++ out') end
  end.

Definition raise {A} (e : exn) : M A := λ s, (inl e, s, []).

Definition get : M session := λ s, (inr s, s, []).

Definition modify (f : session → session) : M unit := λ s, (inr tt, f s, []).

Definition emit (x : effect) : M unit := λ s, (inr tt, s, [x]).

(** [try: body  except Exception as e: handler e] *)
Definition try_except {A} (body : M A) (handler : exn → M A) : M A := λ s,
  match body s with
  | (inl e, s', out) =>
      match handler e s' with (r, s'', out') => (r, s'', out ++ out') end
  | (inr a, s', out) => (inr a, s', out)
  end.

Definition result_of {A} (x : (exn + A) * session * list effect) : exn + A :=
  x.1.1.
Definition state_of {A} (x : (exn + A) * session * list effect) : session :=
  x.1.2.
Definition effects_of {A} (x : (exn + A) * session * list effect)
  : list effect := x.2.

(** [d[k]] *)
Definition getitem (d : dict) (k : string) : M pyval :=
  match d !! k with
  | Some v => mret v
  | None => raise (KeyError k)
  end.

(** A dictionary display [{...}] creates a new object. *)
Definition new_dict (e : job_entry) : M ref := λ s,
  (inr (length (objects s)), set_objects (objects s ++ [e]) s, []).

(** ** Job history manager *)

(** [save_job_to_history(job_data)]; [now] is what
    [datetime.now().strftime("%Y-%m-%d %H:%M:%S")] returns. *)
Definition save_job_to_history (now : string) (job_data : dict) : M unit :=
  v_id ← getitem job_data "id";
  v_title ← getitem job_data "title";
  v_company ← getitem job_data "company";
  v_status ← getitem job_data "status";
  job_entry ← new_dict {| e_id := v_id; e_title := v_title;
                          e_company := v_company; e_submitted_at := now;
                          e_status := v_status |};
  (* Save to session history *)
  modify (λ s, set_job_history (job_entry :: job_history s) s);;
  modify (λ s, set_job_history (take 20 (job_history s)) s);;
  (* Save to persistent history *)
  s ← get;
  match user_key s with
  | Some h =>
      (if bool_decide (global_history s !! h = None)
       then modify (λ s, set_global_history (<[h := []]> (global_history s)) s)
       else mret tt);;
      modify (λ s, set_global_history
                     (<[h := job_entry :: global_history s !!! h]>
                        (global_history s)) s);;
      (* Keep last 100 jobs per user *)
      modify (λ s, set_global_history
                     (<[h := take 100 (global_history s !!! h)]>
                        (global_history s)) s)
  | None => mret tt
  end.

(** [load_user_history()] *)
Definition load_user_history : M unit :=
  s ← get;
  match user_key s with
  | Some h =>
      match global_history s !! h with
      | Some bucket => modify (set_job_history bucket)
      | None => mret tt
      end
  | None => mret tt
  end.

(** ** Sidebar: the two button handlers *)

(** The body of [if st.button("Authenticate", ...)]. *)
Definition authenticate (api_key_input : string) : M unit :=
  if truthy api_key_input then
    modify (set_api_token (Some api_key_input));;
    modify (set_current_user_hash (Some (get_user_hash api_key_input)));;
    load_user_history;;
    emit (st_success "✓ Authenticated successfully!");;
    emit st_rerun
  else
    emit (st_error "Please enter a valid API token").

(** The body of [if st.button("Logout", ...)]. *)
Definition logout : M unit :=
  modify (set_api_token None);;
  modify (set_current_user_hash None);;
  modify (set_job_history []);;
  emit st_rerun.

(** ** Status update (Check Status tab, after a 200 response) *)

(** [for job in l: if job['id'] == job_id: job['status'] =
    status_data['status']; break].  [job_id] is the text of an input
    field, so only a string id can be equal to it.  An index outside the
    store denotes no object and is passed over. *)
Fixpoint update_first (job_id : string) (status_data : dict) (l : list ref)
  : M unit :=
  match l with
  | [] => mret tt
  | job :: rest =>
      s ← get;
      match objects s !! job with
      | Some e =>
          if bool_decide (e_id e = PStr job_id) then
            v ← getitem status_data "status";
            modify (λ s, set_objects (<[job := set_status v e]> (objects s)) s)
          else update_first job_id status_data rest
      | None => update_first job_id status_data rest
      end
  end.

Definition update_status (job_id : string) (status_data : dict) : M unit :=
  (* Update status in both session and persistent history *)
  s ← get;
  update_first job_id status_data (job_history s);;
  (* Update persistent history *)
  s ← get;
  match user_key s with
  | Some h =>
      match global_history s !! h with
      | Some bucket => update_first job_id status_data bucket
      | None => mret tt
      end
  | None => mret tt
  end.

(** ** API request wrapper *)

Record response := Response {
  status_code : Z;
  text : string;
  json : option dict
}.

(** What a call of the HTTP library does: the exchange completes with a
    response, whatever its status code, or the call raises. *)
Inductive http_result :=
  | Completed (r : response)
  | Raised (e : exn).

(** The remote side, as seen through [requests.get] and [requests.post]
    (the headers, form data and files travel with the call and do not
    decide the control flow of the wrapper). *)
Record requests_lib := Requests {
  requests_get : string → http_result;
  requests_post : string → http_result
}.

Definition perform (x : http_result) : M response :=
  match x with
  | Completed r => mret r
  | Raised e => raise e
  end.

Definition API_BASE_URL : string :=
  "https://transcribe-staging.api.inflexion.ai/enterprise".

(** [make_api_request(method, endpoint, ...)]; [None] is Python's [None]. *)
Definition make_api_request (requests : requests_lib)
    (method endpoint : string) : M (option response) :=
  let url := API_BASE_URL +:+ endpoint in
  try_except
    (response ←
       (if bool_decide (method = "GET") then perform (requests_get requests url)
        else if bool_decide (method = "POST")
             then perform (requests_post requests url)
             else raise (ValueError ("Unsupported method: " +:+ method)));
     mret (Some response))
    (λ e, emit (st_error ("API Request Error: " +:+ str_exn e));;
          mret None).

(** ** Export query string (Download Transcript tab) *)

(** [sep.join(l)] *)
Fixpoint join (sep : string) (l : list string) : string :=
  match l with
  | [] => ""
  | [x] => x
  | x :: rest => x +:+ sep +:+ join sep rest
  end.

(** [params = []] followed by the five conditional [params.append]. *)
Definition export_params (remove_timestamps remove_word_timestamps
    remove_speaker_labels remove_insights remove_keywords : bool)
  : list string :=
  let params := [] in
  let params :=
    if remove_timestamps then params ++ ["remove_timestamps=1"] else params in
  let params :=
    if remove_word_timestamps
    then params ++ ["remove_word_level_timestamps=1"] else params in
  let params :=
    if remove_speaker_labels
    then params ++ ["remove_speaker_labels=1"] else params in
  let params :=
    if remove_insights then params ++ ["remove_insights=1"] else params in
  let params :=
    if remove_keywords then params ++ ["remove_keywords=1"] else params in
  params.

(** ["?" + "&".join(params) if params else ""] *)
Definition query_string (params : list string) : string :=
  match params with
  | [] => ""
  | _ :: _ => "?" +:+ join "&" params
  end.

Definition export_query_string (remove_timestamps remove_word_timestamps
    remove_speaker_labels remove_insights remove_keywords : bool) : string :=
  query_string (export_params remove_timestamps remove_word_timestamps
                  remove_speaker_labels remove_insights remove_keywords).

(** ** Check Status tab: what follows a 200 response *)

(** The display block between the history update and the auto-refresh
    test.  What it draws is left out; what it can raise is kept:
    [format_status] calls [status.lower()], and the details panel reads
    the keys ["id"], ["title"], ["company"], ["status"]. *)
Definition show_status (status_data : dict) : M unit :=
  status ← getitem status_data "status";
  match status with
  | PStr _ =>
      getitem status_data "id";;
      getitem status_data "title";;
      getitem status_data "company";;
      getitem status_data "status";;
      mret tt
  | _ => raise (AttributeError "object has no attribute 'lower'")
  end.

(** [if auto_refresh and status_data['status'] == 'processing':
       time.sleep(5); st.rerun()] *)
Definition auto_refresh_logic (auto_refresh : bool) (status_data : dict)
  : M unit :=
  if auto_refresh then
    status ← getitem status_data "status";
    if bool_decide (status = PStr "processing") then
      emit (time_sleep 5);;
      emit st_rerun
    else mret tt
  else mret tt.

(** The branch [if response and response.status_code == 200:] with
    [status_data = response.json()]. *)
Definition on_status_ok (auto_refresh : bool) (job_id : string)
    (status_data : dict) : M unit :=
  update_status job_id status_data;;
  show_status status_data;;
  auto_refresh_logic auto_refresh status_data.

(** Truth value of a [requests.Response]: its [ok], false for the status
    codes 400 to 599. *)
Definition response_truthy (r : response) : bool :=
  negb ((400 <=? status_code r)%Z && (status_code r <? 600)%Z).

(** [response.json()]; a body that is not JSON raises a [ValueError]. *)
Definition response_json (r : response) : M dict :=
  match json r with
  | Some d => mret d
  | None => raise (ValueError "Expecting value")
  end.

(** The body of the Check Status tab for one run of the script:
    [clicked] is what [st.button] returns in this run, [auto_refresh]
    the check box and [job_id] the text field. *)
Definition check_status_tab (requests : requests_lib)
    (clicked auto_refresh : bool) (job_id : string) : M unit :=
  if clicked || auto_refresh then
    if truthy job_id then
      response ← make_api_request requests "GET" ("/workflow/" +:+ job_id);
      match response with
      | Some r =>
          if response_truthy r && bool_decide (status_code r = 200%Z) then
            status_data ← response_json r;
            on_status_ok auto_refresh job_id status_data
          else if response_truthy r then
            emit (st_error ("Error " +:+ pretty (status_code r) +:+ ": "
                              +:+ text r))
          else emit (st_error "Failed to connect to the API")
      | None => emit (st_error "Failed to connect to the API")
      end
    else emit (st_warning "Please enter a job ID")
  else mret tt.


(** ** Operations and reachable states

    The operations on the session, each runnable in every state.  The
    script offers Authenticate only while signed out and the others only
    while signed in, so the sessions it goes through are among those
    reachable here. *)

Inductive op :=
  | Authenticate (api_key_input : string)
  | Logout
  | RecordJob (now : string) (job_data : dict)
  | UpdateStatus (job_id : string) (status_data : dict)
  | LoadUserHistory.

Definition exec (o : op) : M unit :=
  match o with
  | Authenticate api_key_input => authenticate api_key_input
  | Logout => logout
  | RecordJob now job_data => save_job_to_history now job_data
  | UpdateStatus job_id status_data => update_status job_id status_data
  | LoadUserHistory => load_user_history
  end.

(** The state an operation leaves, whether it returned or raised. *)
Definition after (s : session) (o : op) : session := state_of (exec o s).

Definition run_ops (ops : list op) (s : session) : session :=
  fold_left after ops s.

(** The states of a session: any sequence of operations from the start. *)
Inductive reachable : session → Prop :=
  | reachable_initial : reachable initial
  | reachable_after s o : reachable s → reachable (after s o).

(** The records a list of references shows. *)
Definition records (σ : list job_entry) (l : list ref) : list job_entry :=
  omap (λ r, σ !! r) l.

(** The current user's archive bucket, if there is one. *)
Definition current_bucket (s : session) : option (list ref) :=
  h ← user_key s; global_history s !! h.

(** ** Auxiliary definitions used in the statements *)

(** The dictionary [save_job_to_history] builds from the four values it
    reads and the clock. *)
Definition entry_of (now : string) (v_id v_title v_company v_status : pyval)
  : job_entry :=
  {| e_id := v_id; e_title := v_title; e_company := v_company;
     e_submitted_at := now; e_status := v_status |}.

(** The state a successful [save_job_to_history] leaves. *)
Definition saved (e : job_entry) (s : session) : session :=
  let r := length (objects s) in
  let s1 := set_job_history (take 20 (r :: job_history s))
              (set_objects (objects s ++ [e]) s) in
  match user_key s with
  | Some h =>
      set_global_history
        (<[h := take 100 (r :: default [] (global_history s !! h))]>
           (global_history s)) s1
  | None => s1
  end.

(** The state after the two assignments of the Authenticate handler. *)
Definition authenticated (token : string) (s : session) : session :=
  set_current_user_hash (Some (get_user_hash token))
    (set_api_token (Some token) s).

(** The keys [save_job_to_history] reads, in the order it reads them. *)
Definition required_keys : list string := ["id"; "title"; "company"; "status"].

Definition first_missing_key (job_data : dict) : option string :=
  List.find (λ k, bool_decide (job_data !! k = None)) required_keys.

(** A job descriptor as the submission endpoint returns it. *)
Definition job_descriptor (job_id : string) : dict :=
  <["id" := PStr job_id]>
    (<["title" := PStr "Q4 Call"]>
       (<["company" := PStr "Acme"]>
          (<["status" := PStr "processing"]> ∅))).

(** The first object of [l] whose id equals [job_id]. *)
Fixpoint find_job (σ : list job_entry) (job_id : string) (l : list ref)
  : option ref :=
  match l with
  | [] => None
  | r :: rest =>
      match σ !! r with
      | Some e => if bool_decide (e_id e = PStr job_id) then Some r
                  else find_job σ job_id rest
      | None => find_job σ job_id rest
      end
  end.

(** What the specification says of a status update on a sequence of
    records: the first record with the id gets the new status, nothing
    else changes. *)
Fixpoint set_first_status (job_id : string) (v : pyval) (l : list job_entry)
  : list job_entry :=
  match l with
  | [] => []
  | e :: rest =>
      if bool_decide (e_id e = PStr job_id) then set_status v e :: rest
      else e :: set_first_status job_id v rest
  end.

(** What the specification says of the export query: the names of the
    five toggles in their fixed order, one [name=1] per set toggle. *)
Definition toggle_names : list string :=
  ["remove_timestamps"; "remove_word_level_timestamps";
   "remove_speaker_labels"; "remove_insights"; "remove_keywords"].

Definition selected_params (toggles : list bool) : list string :=
  omap (λ p : bool * string, if p.1 then Some (p.2 +:+ "=1") else None)
       (zip toggles toggle_names).

(** [job['status'] = v] on the object [o] refers to, if any. *)
Definition store_status (v : pyval) (o : option ref) (σ : list job_entry)
  : list job_entry :=
  match o with
  | Some r =>
      match σ !! r with
      | Some e => <[r := set_status v e]> σ
      | None => σ
      end
  | None => σ
  end.

(** The store the two loops of the status update leave. *)
Definition updated_objects (job_id : string) (v : pyval) (s : session)
  : list job_entry :=
  let σ1 := store_status v (find_job (objects s) job_id (job_history s))
              (objects s) in
  match current_bucket s with
  | Some bucket => store_status v (find_job σ1 job_id bucket) σ1
  | None => σ1
  end.

(** ** Well-formed sessions

    What every reachable session satisfies: references denote objects, no
    list holds an object twice, the buckets of different users share no
    object, no list is longer than 100, and [job_history] starts with a
    prefix [P] of the current user's bucket, the rest [Q] of it being
    objects that are not in that bucket. *)
Record wf (s : session) : Prop := WF {
  wf_history_valid : ∀ r, r ∈ job_history s → r < length (objects s);
  wf_bucket_valid : ∀ h b r,
    global_history s !! h = Some b → r ∈ b → r < length (objects s);
  wf_history_nodup : NoDup (job_history s);
  wf_bucket_nodup : ∀ h b, global_history s !! h = Some b → NoDup b;
  wf_bucket_disjoint : ∀ h1 h2 b1 b2 r,
    h1 ≠ h2 → global_history s !! h1 = Some b1 →
    global_history s !! h2 = Some b2 → r ∈ b1 → r ∉ b2;
  wf_history_length : length (job_history s) ≤ 100;
  wf_bucket_length : ∀ h b,
    global_history s !! h = Some b → length b ≤ 100;
  wf_split : ∃ P Q R,
    job_history s = P ++ Q ∧
    default [] (current_bucket s) = P ++ R ∧
    ∀ r, r ∈ Q → r ∉ P ++ R
}.

(** ** Sample traces *)

(** [n] successful submissions, the server giving the ids [job-0],
    [job-1], ... *)
Definition submissions (n : nat) : list op :=
  (λ i : nat, RecordJob "2025-01-01 10:00:00"
                (job_descriptor ("job-" +:+ pretty i))) <$> seq 0 n.

(** Sign in, submit [n] jobs, sign out, sign in again with the same
    token. *)
Definition relogin_trace (token : string) (n : nat) : list op :=
  Authenticate token :: submissions n ++ [Logout; Authenticate token].

(** The record a well-formed descriptor gives. *)
Definition descriptor_entry (now : string) (job_data : dict) : job_entry :=
  entry_of now (default PNone (job_data !! "id"))
    (default PNone (job_data !! "title"))
    (default PNone (job_data !! "company"))
    (default PNone (job_data !! "status")).




(** A server that answers every status request with the same payload. *)
Definition server_of (status_data : dict) : requests_lib :=
  {| requests_get := λ _, Completed {| status_code := 200; text := "";
                                       json := Some status_data |};
     requests_post := λ _, Raised (RequestException "connection refused") |}.

Definition payload (job_id status : string) : dict :=
  <["id" := PStr job_id]>
    (<["title" := PStr "Q4 Call"]>
       (<["company" := PStr "Acme"]>
          (<["status" := PStr status]> ∅))).




(** The bucket of the user [h], empty if there is none. *)
Definition bucket_of (s : session) (h : string) : list ref :=
  default [] (global_history s !! h).

(** ** File names and MIME types *)

(** [str.lower()] on one character.  The letters [A] to [Z] are mapped;
    a file name is held as its UTF-8 bytes, and no character outside ASCII
    lowers to a letter or digit of the keys [mp3] and [mp4], so the bytes of
    such characters are left as they are. *)
Definition lower_char (c : ascii) : ascii :=
  let n := nat_of_ascii c in
  if (65 <=? n) && (n <=? 90) then ascii_of_nat (n + 32) else c.

Fixpoint str_lower (x : string) : string :=
  match x with
  | EmptyString => EmptyString
  | String c rest => String (lower_char c) (str_lower rest)
  end.

(** [x.split(sep)] for a separator of one character. *)
Fixpoint str_split (sep : ascii) (x : string) : list string :=
  match x with
  | EmptyString => [EmptyString]
  | String c rest =>
      if bool_decide (c = sep) then EmptyString :: str_split sep rest
      else match str_split sep rest with
           | piece :: pieces => String c piece :: pieces
           | [] => [String c EmptyString]
           end
  end.

Definition mime_types : gmap string string :=
  <["mp3" := "audio/mpeg"]> (<["mp4" := "audio/mp4"]> ∅).

(** [get_mime_type(filename)]; [l[-1]] is the last piece (the list that
    [split] returns is never empty). *)
Definition get_mime_type (filename : string) : string :=
  let ext := str_lower (List.last (str_split "." filename) EmptyString) in
  default "audio/mpeg" (mime_types !! ext).

(** ** Upload Audio tab *)

(** The widgets of the tab: the name of the uploaded file if there is one,
    the text fields and the four check boxes. *)
Record upload_form := UploadForm {
  uploaded_file : option string;
  f_title : string;
  f_company : string;
  f_entities : string;
  f_speakers : string;
  f_call_type : string;
  f_time_period : string;
  clean_audio : bool;
  clean_transcript : bool;
  speaker_diarization : bool;
  fact_checking : bool
}.

(** [str(b).lower()] *)
Definition str_bool_lower (b : bool) : string :=
  if b then "true" else "false".

(** The form data of the request and the warnings shown while building
    it.  [json_normalise x] is [json.dumps(json.loads(x))], [None] when
    that raises (the bare [except:] of the script catches it). *)
Definition upload_data (json_normalise : string → option string)
    (f : upload_form) : gmap string string * list effect :=
  let data :=
    <["title" := f_title f]>
      (<["company" := f_company f]>
         (<["entities" := f_entities f]>
            (<["clean_audio" := str_bool_lower (clean_audio f)]>
               (<["clean_transcript" := str_bool_lower (clean_transcript f)]>
                  (<["speaker_diarization" :=
                       str_bool_lower (speaker_diarization f)]>
                     (<["fact_checking" := str_bool_lower (fact_checking f)]>
                        ∅)))))) in
  (* Add optional fields *)
  let data :=
    if truthy (f_call_type f) then <["call_type" := f_call_type f]> data
    else data in
  let data :=
    if truthy (f_time_period f) then <["time_period" := f_time_period f]> data
    else data in
  if truthy (f_speakers f) then
    match json_normalise (f_speakers f) with
    | Some speakers_json => (<["speakers" := speakers_json]> data, [])
    | None => (data, [st_warning "Invalid speakers JSON format, skipping..."])
    end
  else (data, []).

(** The same form with the speakers field left empty. *)
Definition without_speakers (f : upload_form) : upload_form :=
  {| uploaded_file := uploaded_file f; f_title := f_title f;
     f_company := f_company f; f_entities := f_entities f;
     f_speakers := EmptyString; f_call_type := f_call_type f;
     f_time_period := f_time_period f; clean_audio := clean_audio f;
     clean_transcript := clean_transcript f;
     speaker_diarization := speaker_diarization f;
     fact_checking := fact_checking f |}.

(** The [files] argument: name and MIME type of the audio part. *)
Definition upload_file_part (name : string) : string * string :=
  (name, get_mime_type name).

Fixpoint emit_all (out : list effect) : M unit :=
  match out with
  | [] => mret tt
  | x :: rest => emit x;; emit_all rest
  end.

(** The "Job Details" panel after a submission: the keys it reads. *)
Definition show_job (job_data : dict) : M unit :=
  getitem job_data "id";;
  getitem job_data "status";;
  getitem job_data "title";;
  getitem job_data "company";;
  getitem job_data "id";;
  mret tt.

(** The body of [if st.button("Submit Transcription Job", ...)]. *)
Definition submit_job (requests : requests_lib)
    (json_normalise : string → option string) (now : string)
    (f : upload_form) : M unit :=
  match uploaded_file f with
  | None => emit (st_error "Please select an audio file")
  | Some name =>
      if negb (truthy (f_title f)) then emit (st_error "Please enter a title")
      else if negb (truthy (f_company f)) then
        emit (st_error "Please enter a company name")
      else
        emit_all (upload_data json_normalise f).2;;
        response ← make_api_request requests "POST" "/workflow";
        match response with
        | Some r =>
            if response_truthy r
               && (bool_decide (status_code r = 200%Z)
                   || bool_decide (status_code r = 201%Z)) then
              job_data ← response_json r;
              save_job_to_history now job_data;;
              emit (st_success
                      "✅ Transcription job submitted successfully!");;
              show_job job_data
            else if response_truthy r then
              emit (st_error ("Error " +:+ pretty (status_code r) +:+ ": "
                                +:+ text r))
            else emit (st_error "Failed to connect to the API")
        | None => emit (st_error "Failed to connect to the API")
        end
  end.

(** ** Download Transcript tab *)

(** The MIME type chosen for the format. *)
Definition export_mime (format_type : string) : string :=
  if bool_decide (format_type = "json") then "application/json"
  else if bool_decide (format_type ∈ ["pdf"; "docx"])
       then "application/octet-stream"
       else "text/plain".

Definition export_endpoint (download_job_id format_type query : string)
  : string :=
  "/transcript/export/" +:+ download_job_id +:+ "/" +:+ format_type
    +:+ query.

(** What [st.download_button] is given. *)
Record download_offer := DownloadOffer {
  file_name : string;
  mime : string
}.

(** The body of [if st.button("Download Transcript", ...)]; [timestamp]
    is what [datetime.now().strftime("%Y%m%d_%H%M%S")] returns.  The
    previews draw and cannot raise; they are left out. *)
Definition download_transcript (requests : requests_lib) (timestamp : string)
    (download_job_id format_type : string)
    (remove_timestamps remove_word_timestamps remove_speaker_labels
       remove_insights remove_keywords : bool)
  : M (option download_offer) :=
  if truthy download_job_id then
    let query :=
      export_query_string remove_timestamps remove_word_timestamps
        remove_speaker_labels remove_insights remove_keywords in
    let endpoint := export_endpoint download_job_id format_type query in
    response ← make_api_request requests "GET" endpoint;
    match response with
    | Some r =>
        if response_truthy r && bool_decide (status_code r = 200%Z) then
          let filename :=
            "transcript_" +:+ substring 0 8 download_job_id +:+ "_"
              +:+ timestamp +:+ "." +:+ format_type in
          emit (st_success ("✅ Transcript ready for download as "
                              +:+ filename));;
          mret (Some {| file_name := filename;
                        mime := export_mime format_type |})
        else if response_truthy r then
          (if bool_decide (status_code r = 404%Z) then
             emit (st_error
                     "Transcript not found. Make sure the job is completed.")
           else
             emit (st_error ("Error " +:+ pretty (status_code r) +:+ ": "
                               +:+ text r)));;
          mret None
        else
          emit (st_error "Failed to connect to the API");;
          mret None
    | None =>
        emit (st_error "Failed to connect to the API");;
        mret None
    end
  else
    emit (st_warning "Please enter a job ID");;
    mret None.

(** ** One run of the script *)

(** The values of the widgets in a run: what the fields hold and which
    buttons read [True]. *)
Record widgets := Widgets {
  w_api_key_input : string;
  w_authenticate : bool;
  w_logout : bool;
  w_upload : upload_form;
  w_submit : bool;
  w_job_id : string;
  w_auto_refresh : bool;
  w_check : bool;
  w_download_job_id : string;
  w_format_type : string;
  w_remove_timestamps : bool;
  w_remove_word_timestamps : bool;
  w_remove_speaker_labels : bool;
  w_remove_insights : bool;
  w_remove_keywords : bool;
  w_download : bool
}.

(** What a run meets outside the session: the network, the JSON parser
    on the speakers field, and the clock read by [save_job_to_history]
    and by the download tab. *)
Record run_env := RunEnv {
  env_requests : requests_lib;
  env_json_normalise : string → option string;
  env_now : string;
  env_timestamp : string
}.

(** How a run ends: at the end of the script, by [st.rerun()], by
    [st.stop()], or by an exception nothing catches ([TypeError] is the
    one the sidebar panel can raise). *)
Inductive ending :=
  | finished
  | rerun_requested
  | stopped
  | uncaught (e : exn)
  | uncaught_type_error.

Definition script : Type := session → ending * session * list effect.

Definition end_of_script : script := λ s, (finished, s, []).

(** A part of the script followed by the rest of it, which runs unless
    the part raised or called [st.rerun()]. *)
Definition run_handler (m : M unit) (rest : script) : script := λ s,
  match m s with
  | (inl e, s', out) => (uncaught e, s', out)
  | (inr _, s', out) =>
      if bool_decide (st_rerun ∈ out) then (rerun_requested, s', out)
      else match rest s' with (r, s'', out') => (r, s'', out ++ out') end
  end.

(** The sidebar: the Authenticate button is drawn while [api_token] is
    [None], the Logout button otherwise. *)
Definition sidebar (w : widgets) : M unit :=
  s ← get;
  match api_token s with
  | None =>
      if w_authenticate w then authenticate (w_api_key_input w) else mret tt
  | Some _ => if w_logout w then logout else mret tt
  end.

(** The "Recent Jobs" panel draws the first five jobs;
    [len(job['title'])] raises [TypeError] for a title that is not a
    string. *)
Definition title_is_str (e : job_entry) : bool :=
  match e_title e with PStr _ => true | _ => false end.

Definition recent_jobs_ok (s : session) : bool :=
  forallb title_is_str (records (objects s) (take 5 (job_history s))).

(** The three tabs with handlers, in the order of the script. *)
Definition tabs (env : run_env) (w : widgets) : script :=
  run_handler
    (if w_submit w
     then submit_job (env_requests env) (env_json_normalise env)
            (env_now env) (w_upload w)
     else mret tt)
    (run_handler
       (check_status_tab (env_requests env) (w_check w) (w_auto_refresh w)
          (w_job_id w))
       (run_handler
          (if w_download w
           then download_transcript (env_requests env) (env_timestamp env)
                  (w_download_job_id w) (w_format_type w)
                  (w_remove_timestamps w) (w_remove_word_timestamps w)
                  (w_remove_speaker_labels w) (w_remove_insights w)
                  (w_remove_keywords w);;
                mret tt
           else mret tt)
          end_of_script)).

(** The script from the sidebar on: the sidebar, the panel, the check
    [if st.session_state.api_token is None: ... st.stop()], the tabs. *)
Definition script_run (env : run_env) (w : widgets) : script :=
  run_handler (sidebar w)
    (λ s,
       if recent_jobs_ok s then
         match api_token s with
         | None =>
             (stopped, s,
              [st_warning
                 "⚠️ Please authenticate with your API token in the sidebar to continue."])
         | Some _ => tabs env w s
         end
       else (uncaught_type_error, s, [])).

Definition session_after (x : ending * session * list effect) : session :=
  x.1.2.

(** The sessions the script goes through, run after run. *)
Inductive app_reachable : session → Prop :=
  | app_reachable_initial : app_reachable initial
  | app_reachable_run s env w :
      app_reachable s → app_reachable (session_after (script_run env w s)).

(** What holds of a session of the script: signed out, the session list
    is empty and there is no user hash; signed in, the token is not
    empty, the user hash is the hash of the token, and [job_history] is
    the beginning of that user's bucket. *)
Definition app_inv (s : session) : Prop :=
  match api_token s with
  | None => job_history s = [] ∧ current_user_hash s = None
  | Some token =>
      token ≠ EmptyString ∧
      current_user_hash s = Some (get_user_hash token) ∧
      job_history s `prefix_of` bucket_of s (get_user_hash token)
  end.

(** What the submit handler does once the form is valid, read off the
    answer to the POST: [w] are the warnings of the form data. *)
Definition submitted (requests : requests_lib) (now : string)
    (w : list effect) (s : session) : (exn + unit) * session * list effect :=
  match requests_post requests (API_BASE_URL +:+ "/workflow") with
  | Completed r =>
      if response_truthy r
         && (bool_decide (status_code r = 200%Z)
             || bool_decide (status_code r = 201%Z)) then
        match json r with
        | Some job_data =>
            match first_missing_key job_data with
            | None =>
                (inr tt, saved (descriptor_entry now job_data) s,
                 w ++ [st_success
                         "✅ Transcription job submitted successfully!"])
            | Some k => (inl (KeyError k), s, w)
            end
        | None => (inl (ValueError "Expecting value"), s, w)
        end
      else if response_truthy r then
        (inr tt, s,
         w ++ [st_error ("Error " +:+ pretty (status_code r) +:+ ": "
                           +:+ text r)])
      else (inr tt, s, w ++ [st_error "Failed to connect to the API"])
  | Raised e =>
      (inr tt, s,
       w ++ [st_error ("API Request Error: " +:+ str_exn e);
             st_error "Failed to connect to the API"])
  end.

(** The URL the download handler asks for. *)
Definition export_url (download_job_id format_type : string)
    (remove_timestamps remove_word_timestamps remove_speaker_labels
       remove_insights remove_keywords : bool) : string :=
  API_BASE_URL
    +:+ export_endpoint download_job_id format_type
          (export_query_string remove_timestamps remove_word_timestamps
             remove_speaker_labels remove_insights remove_keywords).

Definition export_file_name (timestamp download_job_id format_type : string)
  : string :=
  "transcript_" +:+ substring 0 8 download_job_id +:+ "_" +:+ timestamp
    +:+ "." +:+ format_type.

(** An HTTP error status, for which a [requests.Response] is false. *)
Definition error_status (r : response) : Prop :=
  (400 ≤ status_code r < 600)%Z.

(** The URL the Check Status tab asks for. *)
Definition status_url (job_id : string) : string :=
  API_BASE_URL +:+ "/workflow/" +:+ job_id.

(** Two job dictionaries that differ at most by their status. *)
Definition same_job (e e' : job_entry) : Prop :=
  e_id e' = e_id e ∧ e_title e' = e_title e ∧ e_company e' = e_company e ∧
  e_submitted_at e' = e_submitted_at e.

(** The operations a run of the tabs can amount to: a job recorded from
    a descriptor with the four keys, a status update. *)
Definition tab_op (o : op) : Prop :=
  match o with
  | RecordJob _ job_data => first_missing_key job_data = None
  | UpdateStatus _ _ => True
  | _ => False
  end.

(** The warning of the check before the tabs. *)
Definition please_authenticate : effect :=
  st_warning
    "⚠️ Please authenticate with your API token in the sidebar to continue.".

(** ** Sample widgets and servers *)

Definition empty_form : upload_form :=
  {| uploaded_file := None; f_title := EmptyString;
     f_company := EmptyString; f_entities := EmptyString;
     f_speakers := EmptyString; f_call_type := EmptyString;
     f_time_period := EmptyString; clean_audio := true;
     clean_transcript := true; speaker_diarization := true;
     fact_checking := false |}.

Definition sample_form : upload_form :=
  {| uploaded_file := Some "call.mp3"; f_title := "Q4 Call";
     f_company := "Acme"; f_entities := EmptyString;
     f_speakers := EmptyString; f_call_type := EmptyString;
     f_time_period := EmptyString; clean_audio := true;
     clean_transcript := true; speaker_diarization := true;
     fact_checking := false |}.

(** No button pressed, every field empty, the check boxes at their
    defaults. *)
Definition idle : widgets :=
  {| w_api_key_input := EmptyString; w_authenticate := false;
     w_logout := false; w_upload := empty_form; w_submit := false;
     w_job_id := EmptyString; w_auto_refresh := false; w_check := false;
     w_download_job_id := EmptyString; w_format_type := "json";
     w_remove_timestamps := false; w_remove_word_timestamps := true;
     w_remove_speaker_labels := false; w_remove_insights := false;
     w_remove_keywords := false; w_download := false |}.

Definition sign_in_click (token : string) : widgets :=
  {| w_api_key_input := token; w_authenticate := true;
     w_logout := false; w_upload := empty_form; w_submit := false;
     w_job_id := EmptyString; w_auto_refresh := false; w_check := false;
     w_download_job_id := EmptyString; w_format_type := "json";
     w_remove_timestamps := false; w_remove_word_timestamps := true;
     w_remove_speaker_labels := false; w_remove_insights := false;
     w_remove_keywords := false; w_download := false |}.

Definition submit_click : widgets :=
  {| w_api_key_input := EmptyString; w_authenticate := false;
     w_logout := false; w_upload := sample_form; w_submit := true;
     w_job_id := EmptyString; w_auto_refresh := false; w_check := false;
     w_download_job_id := EmptyString; w_format_type := "json";
     w_remove_timestamps := false; w_remove_word_timestamps := true;
     w_remove_speaker_labels := false; w_remove_insights := false;
     w_remove_keywords := false; w_download := false |}.

(** A server that accepts every submission with status 201 and the
    descriptor [job_data], and fails every GET. *)
Definition accepting_server (job_data : dict) : requests_lib :=
  {| requests_get := λ _, Raised (RequestException "connection refused");
     requests_post := λ _, Completed {| status_code := 201; text := "";
                                        json := Some job_data |} |}.

Definition sample_env (requests : requests_lib) : run_env :=
  {| env_requests := requests; env_json_normalise := λ _, None;
     env_now := "2025-01-01 10:00:00"; env_timestamp := "20250101_100000" |}.

(** Sign in with [token], then submit the sample form to a server that
    answers with [job_data]. *)
Definition signed_in_with_job (token : string) (job_data : dict) : session :=
  session_after
    (script_run (sample_env (accepting_server job_data)) submit_click
       (session_after
          (script_run (sample_env (accepting_server job_data))
             (sign_in_click token) initial))).

(** A descriptor whose title is JSON [null]. *)
Definition untitled_descriptor (job_id : string) : dict :=
  <["title" := PNone]> (job_descriptor job_id).

Definition logout_click : widgets :=
  {| w_api_key_input := EmptyString; w_authenticate := false;
     w_logout := true; w_upload := empty_form; w_submit := false;
     w_job_id := EmptyString; w_auto_refresh := false; w_check := false;
     w_download_job_id := EmptyString; w_format_type := "json";
     w_remove_timestamps := false; w_remove_word_timestamps := true;
     w_remove_speaker_labels := false; w_remove_insights := false;
     w_remove_keywords := false; w_download := false |}.

(** The first user signs in, submits a job and signs out; a second user
    signs in. *)
Definition second_user_session (token1 token2 : string) (job_data : dict)
  : session :=
  session_after
    (script_run (sample_env (accepting_server job_data))
       (sign_in_click token2)
       (session_after
          (script_run (sample_env (accepting_server job_data)) logout_click
             (signed_in_with_job token1 job_data)))).

(** * Properties

    ** The user identifier *)

Example md5_empty :
  MD5.hexdigest (encode "") = "d41d8cd98f00b204e9800998ecf8427e".
Proof. vm_compute. reflexivity. Qed.

Example md5_abc :
  MD5.hexdigest (encode "abc") = "900150983cd24fb0d6963f7d28e17f72".
Proof. vm_compute. reflexivity. Qed.

Example md5_two_blocks :
  MD5.hexdigest (encode "aaaaaaaaaaaaaaaaaaaaaaaaaaaaaaaaaaaaaaaaaaaaaaaaaaaaaaaa")
  = "3b0c8ac703f828b04c6c197006d17218".
Proof. vm_compute. reflexivity. Qed.

Example get_user_hash_abc123 : get_user_hash "abc123" = "e99a18c428cb38d5".
Proof. vm_compute. reflexivity. Qed.

Lemma get_user_hash_length (token : string) :
  String.length (get_user_hash token) = 16%nat.
Proof.
  unfold get_user_hash, MD5.hexdigest.
  destruct (MD5.digest (encode token)) as [[[a b] c] d].
  reflexivity.
Qed.

Lemma get_user_hash_nonempty (token : string) : get_user_hash token <> "".
Proof.
  intros E. pose proof (get_user_hash_length token) as L.
  rewrite E in L. discriminate L.
Qed.

(** ** Running the history operations *)

Lemma save_job_to_history_run now job_data s a b c d :
  job_data !! "id" = Some a → job_data !! "title" = Some b →
  job_data !! "company" = Some c → job_data !! "status" = Some d →
  save_job_to_history now job_data s
  = (inr tt, saved (entry_of now a b c d) s, []).
Proof.
  intros Ha Hb Hc Hd.
  unfold save_job_to_history, getitem, mbind, M_bind, mret, M_ret.
  rewrite Ha, Hb, Hc, Hd. cbn.
  unfold saved, user_key. cbn.
  destruct (current_user_hash s) as [h|] eqn:Eh; cbn; [|reflexivity].
  destruct (truthy h) eqn:Et; cbn; [|reflexivity].
  case_bool_decide as Hg; cbn.
  - rewrite Hg. cbn.
    rewrite !lookup_total_insert_eq, !insert_insert_eq. reflexivity.
  - destruct (global_history s !! h) as [bk|] eqn:Eb; [|done]. cbn.
    rewrite !lookup_total_insert_eq, !insert_insert_eq.
    rewrite (lookup_total_correct _ _ _ Eb). reflexivity.
Qed.

Lemma save_job_to_history_missing now job_data s k :
  first_missing_key job_data = Some k →
  save_job_to_history now job_data s = (inl (KeyError k), s, []).
Proof.
  unfold first_missing_key, required_keys; cbn.
  unfold save_job_to_history, getitem, mbind, M_bind, mret, M_ret, raise.
  destruct (job_data !! "id"); cbn; [|intros [= <-]; reflexivity].
  destruct (job_data !! "title"); cbn; [|intros [= <-]; reflexivity].
  destruct (job_data !! "company"); cbn; [|intros [= <-]; reflexivity].
  destruct (job_data !! "status"); cbn; [|intros [= <-]; reflexivity].
  discriminate.
Qed.

Lemma first_missing_key_None job_data :
  first_missing_key job_data = None ↔
  ∀ k, k ∈ required_keys → is_Some (job_data !! k).
Proof.
  unfold first_missing_key, required_keys; cbn. split.
  - repeat (case_bool_decide; [discriminate|]).
    intros _ k Hk. apply not_eq_None_Some.
    repeat (apply elem_of_cons in Hk as [->|Hk]; [assumption|]).
    inversion Hk.
  - intros H.
    repeat (case_bool_decide as Hk;
            [ exfalso; eapply is_Some_None; rewrite <- Hk; apply H;
              repeat constructor | clear Hk ]).
    reflexivity.
Qed.

Lemma load_user_history_run s :
  load_user_history s
  = (inr tt, match current_bucket s with
             | Some bucket => set_job_history bucket s
             | None => s
             end, []).
Proof.
  unfold load_user_history, current_bucket, mbind, M_bind, option_bind; cbn.
  destruct (user_key s) as [h|]; cbn; [|reflexivity].
  destruct (global_history s !! h); reflexivity.
Qed.

Lemma current_bucket_Some s bucket :
  current_bucket s = Some bucket ↔
  ∃ h, current_user_hash s = Some h ∧ h ≠ "" ∧
       global_history s !! h = Some bucket.
Proof.
  unfold current_bucket, user_key. split.
  - destruct (current_user_hash s) as [h|]; cbn; [|discriminate].
    destruct h as [|c h]; cbn; [discriminate|]. intros E.
    exists (String c h). repeat split; [discriminate | exact E].
  - intros (h & -> & Hne & E). destruct h; [congruence | exact E].
Qed.

Lemma authenticate_run token s :
  authenticate token s
  = if truthy token
    then (inr tt, state_of (load_user_history (authenticated token s)),
          [st_success "✓ Authenticated successfully!"; st_rerun])
    else (inr tt, s, [st_error "Please enter a valid API token"]).
Proof.
  unfold authenticate. destruct (truthy token); [|reflexivity].
  unfold mbind, M_bind, modify, emit; cbn.
  fold (authenticated token s). rewrite load_user_history_run. reflexivity.
Qed.

Lemma logout_run s :
  logout s
  = (inr tt, set_job_history []
               (set_current_user_hash None (set_api_token None s)),
     [st_rerun]).
Proof. reflexivity. Qed.

Lemma user_key_authenticated token s :
  user_key (authenticated token s) = Some (get_user_hash token).
Proof.
  unfold user_key; cbn. pose proof (get_user_hash_nonempty token).
  destruct (get_user_hash token); [congruence | reflexivity].
Qed.

Lemma truthy_false (x : string) : truthy x = false ↔ x = "".
Proof. destruct x; cbn; split; congruence. Qed.

Lemma truthy_true (x : string) : truthy x = true ↔ x ≠ "".
Proof. destruct x; cbn; split; congruence. Qed.

(** ** Recording a job *)

Lemma take_20_length {A} (l : list A) : length (take 20 l) ≤ 20.
Proof. rewrite length_take. lia. Qed.

Lemma records_cons_fresh σ e l :
  records (σ ++ [e]) (length σ :: l) = e :: records (σ ++ [e]) l.
Proof.
  unfold records; cbn.
  rewrite lookup_app_r, Nat.sub_diag by lia. reflexivity.
Qed.

Lemma saved_objects e s : objects (saved e s) = objects s ++ [e].
Proof. unfold saved. destruct (user_key s); reflexivity. Qed.

Lemma saved_job_history e s :
  job_history (saved e s) = take 20 (length (objects s) :: job_history s).
Proof. unfold saved. destruct (user_key s); reflexivity. Qed.

Lemma saved_api_token e s : api_token (saved e s) = api_token s.
Proof. unfold saved. destruct (user_key s); reflexivity. Qed.

Lemma saved_current_user_hash e s :
  current_user_hash (saved e s) = current_user_hash s.
Proof. unfold saved. destruct (user_key s); reflexivity. Qed.

Lemma saved_global_history e s :
  global_history (saved e s)
  = match user_key s with
    | Some h =>
        <[h := take 100 (length (objects s)
                           :: default [] (global_history s !! h))]>
          (global_history s)
    | None => global_history s
    end.
Proof. unfold saved. destruct (user_key s); reflexivity. Qed.

(** C1.  For a job descriptor holding the four keys, [save_job_to_history]
    returns normally; the new dictionary is a new object; its reference is
    put at the front of [job_history], which is cut to 20 entries, so the
    new record is the first one shown; when the user hash is set (and not
    empty) the same reference is put at the front of that user's bucket of
    [global_history] (created empty if absent), cut to 100 entries, and
    the other buckets are as before; otherwise [global_history] is as
    before.  When [job_history] held 20 entries, the new list is the new
    reference followed by the old list without its last (oldest) entry.
    The state [s] is arbitrary, so this holds after any number of calls. *)
Theorem save_job_to_history_spec now job_data s v_id v_title v_company
    v_status :
  job_data !! "id" = Some v_id →
  job_data !! "title" = Some v_title →
  job_data !! "company" = Some v_company →
  job_data !! "status" = Some v_status →
  let e := entry_of now v_id v_title v_company v_status in
  let r := length (objects s) in
  let s' := state_of (save_job_to_history now job_data s) in
  result_of (save_job_to_history now job_data s) = inr tt ∧
  objects s' = objects s ++ [e] ∧
  job_history s' = take 20 (r :: job_history s) ∧
  length (job_history s') ≤ 20 ∧
  head (job_history s') = Some r ∧
  head (records (objects s') (job_history s')) = Some e ∧
  (length (job_history s) = 20 →
   job_history s' = r :: removelast (job_history s)) ∧
  match user_key s with
  | Some h =>
      global_history s' !! h
      = Some (take 100 (r :: default [] (global_history s !! h))) ∧
      head (take 100 (r :: default [] (global_history s !! h))) = Some r ∧
      length (take 100 (r :: default [] (global_history s !! h))) ≤ 100 ∧
      ∀ h', h' ≠ h → global_history s' !! h' = global_history s !! h'
  | None => global_history s' = global_history s
  end ∧
  api_token s' = api_token s ∧
  current_user_hash s' = current_user_hash s.
Proof.
  intros Ha Hb Hc Hd e r s'.
  pose proof (save_job_to_history_run now job_data s _ _ _ _ Ha Hb Hc Hd)
    as Hrun.
  subst s'. rewrite Hrun. unfold state_of, result_of; cbn. fold e.
  rewrite saved_objects, saved_job_history, saved_global_history,
    saved_api_token, saved_current_user_hash. fold r.
  split_and!; try reflexivity.
  - apply take_20_length.
  - change (take 20 (r :: job_history s))
      with (r :: take 19 (job_history s)).
    unfold r. rewrite records_cons_fresh. reflexivity.
  - intros L. cbn. f_equal.
    destruct (job_history s) as [|x l] using rev_ind; [discriminate L|].
    rewrite removelast_last. rewrite length_app in L; cbn in L.
    rewrite take_app_length'; [reflexivity | lia].
  - destruct (user_key s) as [h|]; [|reflexivity].
    split_and!.
    + apply lookup_insert_eq.
    + reflexivity.
    + rewrite length_take. lia.
    + intros h' Hne. apply lookup_insert_ne. congruence.
Qed.

Lemma save_job_to_history_spec_witness :
  let s' := state_of (save_job_to_history "2025-01-01 10:00:00"
                        (job_descriptor "job-1") initial) in
  job_history s' = [0] ∧ global_history s' = ∅ ∧
  head (records (objects s') (job_history s'))
  = Some (entry_of "2025-01-01 10:00:00" (PStr "job-1") (PStr "Q4 Call")
            (PStr "Acme") (PStr "processing")).
Proof.
  pose proof (save_job_to_history_spec "2025-01-01 10:00:00"
                (job_descriptor "job-1") initial (PStr "job-1")
                (PStr "Q4 Call") (PStr "Acme") (PStr "processing")
                eq_refl eq_refl eq_refl eq_refl) as H.
  cbv zeta in H.
  destruct H as (_ & _ & Hj & _ & _ & Hh & _ & Hg & _).
  cbv zeta. split_and!; [exact Hj | exact Hg | exact Hh].
Defined.

(** C10.  [save_job_to_history] reads ["id"], ["title"], ["company"] and
    ["status"] from its argument before it touches the session: when all
    four are present the call returns normally, and when one is missing
    it raises [KeyError] for the first missing one and the whole session
    state, [job_history] and [global_history] included, is the one before
    the call. *)
Theorem save_job_to_history_precondition now job_data s :
  (first_missing_key job_data = None ↔
   ∀ k, k ∈ required_keys → is_Some (job_data !! k)) ∧
  match first_missing_key job_data with
  | None =>
      ∃ s', save_job_to_history now job_data s = (inr tt, s', [])
  | Some k =>
      k ∈ required_keys ∧ job_data !! k = None ∧
      save_job_to_history now job_data s = (inl (KeyError k), s, [])
  end.
Proof.
  split; [apply first_missing_key_None|].
  destruct (first_missing_key job_data) as [k|] eqn:E.
  - split_and!.
    + apply list_elem_of_In. eapply find_some, E.
    + apply find_some in E as [_ E]. apply bool_decide_eq_true in E. exact E.
    + apply save_job_to_history_missing, E.
  - pose proof (proj1 (first_missing_key_None job_data) E) as H.
    destruct (H "id") as [a Ha]; [repeat constructor|].
    destruct (H "title") as [b Hb]; [repeat constructor|].
    destruct (H "company") as [c Hc]; [repeat constructor|].
    destruct (H "status") as [d Hd]; [repeat constructor|].
    eexists. apply (save_job_to_history_run _ _ _ _ _ _ _ Ha Hb Hc Hd).
Qed.

(** ** Loading the history, authentication *)



(** C7, as the code has it.  The Authenticate handler rejects exactly the
    empty token: it shows the error and leaves the session as it was.
    Every other token, one made of white space included, is accepted:
    [api_token] becomes the token, [current_user_hash] its hash, and
    [load_user_history] runs on that state. *)
Theorem authenticate_spec token s :
  (truthy token = false ↔ token = "") ∧
  authenticate token s
  = (if truthy token
     then (inr tt, state_of (load_user_history (authenticated token s)),
           [st_success "✓ Authenticated successfully!"; st_rerun])
     else (inr tt, s, [st_error "Please enter a valid API token"])) ∧
  api_token (authenticated token s) = Some token ∧
  current_user_hash (authenticated token s) = Some (get_user_hash token) ∧
  api_token (state_of (load_user_history (authenticated token s)))
  = Some token ∧
  current_user_hash (state_of (load_user_history (authenticated token s)))
  = Some (get_user_hash token).
Proof.
  split_and!; try reflexivity.
  - apply truthy_false.
  - apply authenticate_run.
  - rewrite load_user_history_run; unfold state_of.
    destruct (current_bucket (authenticated token s)); reflexivity.
  - rewrite load_user_history_run; unfold state_of.
    destruct (current_bucket (authenticated token s)); reflexivity.
Qed.

(** C7, counterexample.  A token made of one space is not rejected: no
    error is shown and the session is signed in with it. *)
Lemma authenticate_accepts_blank_token :
  authenticate " " initial
  = (inr tt,
     {| api_token := Some " "; job_history := []; global_history := ∅;
        current_user_hash := Some "7215ee9c7d9dc229"; objects := [] |},
     [st_success "✓ Authenticated successfully!"; st_rerun]) ∧
  state_of (authenticate " " initial) ≠ initial.
Proof. vm_compute. split; [reflexivity | discriminate]. Qed.

(** ** Export query string *)

(** C6.  The parameters are the [name=1] of the set toggles in the fixed
    order; the query string is empty when there is none and otherwise
    [?] followed by the parameters joined by [&]. *)
Theorem export_query_string_spec (remove_timestamps remove_word_timestamps
    remove_speaker_labels remove_insights remove_keywords : bool) :
  let toggles := [remove_timestamps; remove_word_timestamps;
                  remove_speaker_labels; remove_insights; remove_keywords] in
  let q := export_query_string remove_timestamps remove_word_timestamps
             remove_speaker_labels remove_insights remove_keywords in
  export_params remove_timestamps remove_word_timestamps
    remove_speaker_labels remove_insights remove_keywords
  = selected_params toggles ∧
  length (selected_params toggles)
  = length (filter (λ b : bool, b = true) toggles) ∧
  q = (if existsb (λ b, b) toggles
       then "?" +:+ join "&" (selected_params toggles) else "") ∧
  (String.prefix "?" q = true ↔ ∃ b, b ∈ toggles ∧ b = true) ∧
  export_query_string false false false false false = "" ∧
  export_query_string true false false false true
  = "?remove_timestamps=1&remove_keywords=1" ∧
  export_query_string false false true false false
  = "?remove_speaker_labels=1".
Proof.
  cbv zeta.
  assert (∀ b : bool, b ∈ [false; false; false; false; false] → b ≠ true)
    as Hfalse.
  { intros b Hb.
    repeat (apply elem_of_cons in Hb as [->|Hb]; [discriminate|]).
    inversion Hb. }
  destruct remove_timestamps, remove_word_timestamps, remove_speaker_labels,
    remove_insights, remove_keywords;
    split_and!; try (vm_compute; reflexivity);
    (split;
     [ intros H;
       first [ discriminate H
             | exists true; split; [set_solver | reflexivity] ]
     | intros (b & Hb & ->);
       first [ vm_compute; reflexivity
             | exfalso; exact (Hfalse _ Hb eq_refl) ] ]).
Qed.

(** ** API request wrapper *)


Lemma make_api_request_raised requests method endpoint e s :
  (method = "GET" ∧
   requests_get requests (API_BASE_URL +:+ endpoint) = Raised e) ∨
  (method = "POST" ∧
   requests_post requests (API_BASE_URL +:+ endpoint) = Raised e) →
  make_api_request requests method endpoint s
  = (inr None, s, [st_error ("API Request Error: " +:+ str_exn e)]).
Proof.
  intros [[-> H]|[-> H]];
    unfold make_api_request, try_except, mbind, M_bind; cbn;
    rewrite H; reflexivity.
Qed.

Lemma make_api_request_unsupported requests method endpoint s :
  method ≠ "GET" → method ≠ "POST" →
  make_api_request requests method endpoint s
  = (inr None, s,
     [st_error ("API Request Error: Unsupported method: " +:+ method)]).
Proof.
  intros H1 H2. unfold make_api_request, try_except, mbind, M_bind.
  rewrite !bool_decide_eq_false_2 by assumption. reflexivity.
Qed.


(** ** The store under a status update *)

Section store.

Context (job_id : string) (v : pyval).

Implicit Types (σ : list job_entry) (l : list ref) (o : option ref).

Lemma find_job_Some σ l r :
  find_job σ job_id l = Some r →
  r ∈ l ∧ ∃ e, σ !! r = Some e ∧ e_id e = PStr job_id.
Proof.
  induction l as [|r0 l IH]; cbn; [discriminate|].
  destruct (σ !! r0) as [e0|] eqn:E0.
  - case_bool_decide as Hid.
    + intros [= <-]. split; [left | eauto].
    + intros [? ?]%IH. split; [by right | done].
  - intros [? ?]%IH. split; [by right | done].
Qed.

Lemma find_job_None σ l :
  find_job σ job_id l = None ↔
  ∀ e, e ∈ records σ l → e_id e ≠ PStr job_id.
Proof.
  unfold records. induction l as [|r0 l IH]; cbn.
  - split; [intros _ e He; inversion He | done].
  - destruct (σ !! r0) as [e0|] eqn:E0; [|exact IH].
    case_bool_decide as Hid.
    + split; [discriminate|]. intros H. exfalso. eapply H; [left | exact Hid].
    + rewrite IH. split.
      * intros H e [->|He]%elem_of_cons; [exact Hid | by apply H].
      * intros H e He. apply H. by right.
Qed.

Lemma find_job_app σ l k :
  find_job σ job_id (l ++ k)
  = match find_job σ job_id l with
    | Some r => Some r
    | None => find_job σ job_id k
    end.
Proof.
  induction l as [|r0 l IH]; cbn; [reflexivity|].
  destruct (σ !! r0) as [e0|]; [|exact IH].
  case_bool_decide; [reflexivity | exact IH].
Qed.

Lemma lookup_store_status σ o r :
  store_status v o σ !! r
  = if bool_decide (o = Some r) then set_status v <$> σ !! r else σ !! r.
Proof.
  unfold store_status. destruct o as [r'|]; [|by rewrite bool_decide_eq_false_2].
  case_bool_decide as E.
  - injection E as ->. destruct (σ !! r) as [e|] eqn:Er; [|by rewrite Er].
    cbn. apply list_lookup_insert_eq. eapply lookup_lt_Some, Er.
  - destruct (σ !! r'); [|reflexivity].
    apply list_lookup_insert_ne. congruence.
Qed.

Lemma length_store_status σ o : length (store_status v o σ) = length σ.
Proof.
  unfold store_status. destruct o as [r|]; [|reflexivity].
  destruct (σ !! r); [apply length_insert | reflexivity].
Qed.

Lemma find_job_store_status σ o l :
  find_job (store_status v o σ) job_id l = find_job σ job_id l.
Proof.
  induction l as [|r0 l IH]; cbn; [reflexivity|].
  rewrite lookup_store_status.
  case_bool_decide; destruct (σ !! r0) as [e0|]; cbn; rewrite ?IH; reflexivity.
Qed.

Lemma store_status_idem σ o :
  store_status v o (store_status v o σ) = store_status v o σ.
Proof.
  apply list_eq. intros r. rewrite !lookup_store_status.
  case_bool_decide; [|reflexivity]. by destruct (σ !! r).
Qed.

Lemma records_store_status_other σ o l :
  (∀ r, o = Some r → r ∉ l) →
  records (store_status v o σ) l = records σ l.
Proof.
  unfold records. intros H. induction l as [|r0 l IH]; cbn; [reflexivity|].
  rewrite lookup_store_status, bool_decide_eq_false_2.
  - rewrite IH; [reflexivity|]. intros r Hr Hin. eapply H; [exact Hr | by right].
  - intros Hr. eapply H; [exact Hr | left].
Qed.

Lemma records_cons σ r l :
  records σ (r :: l)
  = match σ !! r with
    | Some e => e :: records σ l
    | None => records σ l
    end.
Proof. reflexivity. Qed.

Lemma records_app σ l k : records σ (l ++ k) = records σ l ++ records σ k.
Proof. apply omap_app. Qed.

Lemma records_store_status_first σ l :
  NoDup l →
  records (store_status v (find_job σ job_id l) σ) l
  = set_first_status job_id v (records σ l).
Proof.
  intros Hnd. induction Hnd as [|r0 l Hnotin Hnd IH]; [reflexivity|].
  rewrite !records_cons, lookup_store_status. cbn [find_job].
  destruct (σ !! r0) as [e0|] eqn:E0.
  - cbn [set_first_status].
    destruct (decide (e_id e0 = PStr job_id)) as [Hid|Hid].
    + rewrite !(bool_decide_eq_true_2 _ Hid).
      rewrite bool_decide_eq_true_2 by reflexivity.
      cbn [fmap option_fmap option_map]. f_equal.
      apply records_store_status_other. by intros ? [= <-].
    + rewrite !(bool_decide_eq_false_2 _ Hid).
      rewrite bool_decide_eq_false_2.
      * f_equal. exact IH.
      * intros (_ & e & He & Hide)%find_job_Some. congruence.
  - rewrite bool_decide_eq_false_2; [exact IH|].
    intros (_ & e & He & _)%find_job_Some. congruence.
Qed.

Lemma lookup_store_status_find σ l r e :
  σ !! r = Some e →
  store_status v (find_job σ job_id l) σ !! r = Some e ∨
  (store_status v (find_job σ job_id l) σ !! r = Some (set_status v e) ∧
   e_id e = PStr job_id).
Proof.
  intros He. rewrite lookup_store_status, He.
  case_bool_decide as E; [right|by left].
  apply find_job_Some in E as (_ & e0 & He0 & Hid).
  split; [reflexivity | congruence].
Qed.

(** The first matches of [P ++ Q] and [P ++ R] are the same object, or
    each of them is outside the other list. *)
Lemma first_matches σ (P Q R : list ref) :
  NoDup (P ++ R) → (∀ r, r ∈ Q → r ∉ P ++ R) →
  let o1 := find_job σ job_id (P ++ Q) in
  let o2 := find_job σ job_id (P ++ R) in
  o1 = o2 ∨
  ((∀ r, o2 = Some r → r ∉ P ++ Q) ∧ (∀ r, o1 = Some r → r ∉ P ++ R)).
Proof.
  intros Hnd Hdisj. cbn. rewrite !find_job_app.
  destruct (find_job σ job_id P) as [r0|] eqn:EP; [by left|].
  right. split.
  - intros r [Hr _]%find_job_Some [HP|HQ]%elem_of_app.
    + apply NoDup_app in Hnd as (_ & Hnd & _). by apply (Hnd r).
    + apply (Hdisj r HQ). apply elem_of_app. by right.
  - intros r [Hr _]%find_job_Some. by apply Hdisj.
Qed.

Lemma set_first_status_length (es : list job_entry) :
  length (set_first_status job_id v es) = length es.
Proof.
  induction es as [|e es IH]; cbn; [reflexivity|].
  case_bool_decide; cbn; congruence.
Qed.

(** [set_first_status] changes the status of the first record with the id
    and nothing else. *)
Lemma set_first_status_spec (es : list job_entry) :
  ((∀ e, e ∈ es → e_id e ≠ PStr job_id) ∧
   set_first_status job_id v es = es) ∨
  (∃ i e, es !! i = Some e ∧ e_id e = PStr job_id ∧
          (∀ j e', j < i → es !! j = Some e' → e_id e' ≠ PStr job_id) ∧
          set_first_status job_id v es = <[i := set_status v e]> es).
Proof.
  induction es as [|e0 es IH]; cbn.
  - left. split; [intros e He; inversion He | reflexivity].
  - case_bool_decide as Hid.
    + right. exists 0, e0. split_and!; try done. intros j e' Hj. lia.
    + destruct IH as [[Hno ->]|(i & e & Hi & Hide & Hbefore & ->)].
      * left. split; [|reflexivity].
        intros e [->|He]%elem_of_cons; [done | by apply Hno].
      * right. exists (S i), e. split_and!; try done.
        intros [|j] e' Hj; cbn; [by intros [= <-]|].
        apply Hbefore. lia.
Qed.

End store.

(** ** Running the status update *)

Lemma set_objects_id s : set_objects (objects s) s = s.
Proof. by destruct s. Qed.

Lemma update_first_run job_id status_data l s :
  update_first job_id status_data l s
  = match find_job (objects s) job_id l with
    | None => (inr tt, s, [])
    | Some r =>
        match status_data !! "status" with
        | Some v =>
            (inr tt, set_objects (store_status v (Some r) (objects s)) s, [])
        | None => (inl (KeyError "status"), s, [])
        end
    end.
Proof.
  induction l as [|r0 l IH]; [reflexivity|].
  cbn [update_first find_job]. unfold mbind, M_bind, get.
  destruct (objects s !! r0) as [e0|] eqn:E0;
    [|rewrite IH; by repeat case_match].
  case_bool_decide; [|rewrite IH; by repeat case_match].
  unfold getitem. destruct (status_data !! "status"); [|reflexivity].
  cbn. rewrite E0. reflexivity.
Qed.

Lemma update_first_no_match job_id status_data l s :
  find_job (objects s) job_id l = None →
  update_first job_id status_data l s = (inr tt, s, []).
Proof. intros H. by rewrite update_first_run, H. Qed.

Lemma update_first_found job_id status_data l s v :
  status_data !! "status" = Some v →
  update_first job_id status_data l s
  = (inr tt,
     set_objects (store_status v (find_job (objects s) job_id l) (objects s))
       s, []).
Proof.
  intros Hv. rewrite update_first_run, Hv.
  destruct (find_job (objects s) job_id l); [reflexivity|].
  cbn. by rewrite set_objects_id.
Qed.

Lemma update_status_run job_id status_data s v :
  status_data !! "status" = Some v →
  update_status job_id status_data s
  = (inr tt, set_objects (updated_objects job_id v s) s, []).
Proof.
  intros Hv. unfold update_status, updated_objects, mbind, M_bind, get.
  rewrite (update_first_found _ _ _ _ _ Hv). unfold current_bucket.
  change (user_key (set_objects ?σ s)) with (user_key s).
  destruct (user_key s) as [h|]; cbn; [|reflexivity].
  destruct (global_history s !! h) as [b|]; cbn; [|reflexivity].
  rewrite (update_first_found _ _ _ _ _ Hv). reflexivity.
Qed.

Lemma update_status_no_match job_id status_data s :
  find_job (objects s) job_id (job_history s) = None →
  (∀ b, current_bucket s = Some b → find_job (objects s) job_id b = None) →
  update_status job_id status_data s = (inr tt, s, []).
Proof.
  intros H1 H2. unfold update_status, mbind, M_bind, get.
  rewrite (update_first_no_match _ _ _ _ H1).
  unfold current_bucket in H2.
  destruct (user_key s) as [h|]; cbn in *; [|reflexivity].
  destruct (global_history s !! h) as [b|]; [|reflexivity].
  rewrite (update_first_no_match _ _ _ _ (H2 _ eq_refl)). reflexivity.
Qed.

(** Whatever the payload, the update changes nothing but the store, and
    in the store nothing but status fields. *)
Lemma update_first_frame job_id status_data l s :
  let s' := state_of (update_first job_id status_data l s) in
  api_token s' = api_token s ∧ job_history s' = job_history s ∧
  global_history s' = global_history s ∧
  current_user_hash s' = current_user_hash s ∧
  length (objects s') = length (objects s).
Proof.
  cbv zeta. rewrite update_first_run.
  destruct (find_job (objects s) job_id l) as [r|]; [|done].
  destruct (status_data !! "status") as [v|]; [|done].
  unfold state_of; cbn [fst snd]. split_and!; try reflexivity.
  apply (length_store_status v _ (Some r)).
Qed.

Lemma update_status_frame job_id status_data s :
  let s' := state_of (update_status job_id status_data s) in
  api_token s' = api_token s ∧ job_history s' = job_history s ∧
  global_history s' = global_history s ∧
  current_user_hash s' = current_user_hash s ∧
  length (objects s') = length (objects s).
Proof.
  cbv zeta. unfold update_status, mbind, M_bind, get.
  pose proof (update_first_frame job_id status_data (job_history s) s) as H1.
  cbv zeta in H1. unfold state_of in *.
  destruct (update_first job_id status_data (job_history s) s)
    as [[[e|[]] s1] out1]; cbn [fst snd] in *; [exact H1|].
  destruct H1 as (Ht & Hj & Hg & Hu & Hl).
  assert (user_key s1 = user_key s) as Hk by (unfold user_key; by rewrite Hu).
  rewrite Hk. destruct (user_key s) as [h|]; cbn; [|done].
  rewrite Hg. destruct (global_history s !! h) as [b|]; cbn; [|done].
  pose proof (update_first_frame job_id status_data b s1) as H2.
  cbv zeta in H2. unfold state_of in H2.
  destruct (update_first job_id status_data b s1) as [[r2 s2] out2];
    cbn [fst snd] in *.
  destruct H2 as (Ht2 & Hj2 & Hg2 & Hu2 & Hl2).
  split_and!; congruence.
Qed.

Lemma lookup_updated_objects job_id v s r e :
  objects s !! r = Some e →
  updated_objects job_id v s !! r = Some e ∨
  (updated_objects job_id v s !! r = Some (set_status v e) ∧
   e_id e = PStr job_id).
Proof.
  intros He. unfold updated_objects.
  set (σ1 := store_status v (find_job (objects s) job_id (job_history s))
               (objects s)).
  assert (σ1 !! r = Some e ∨
          (σ1 !! r = Some (set_status v e) ∧ e_id e = PStr job_id)) as H1
    by apply lookup_store_status_find, He.
  destruct (current_bucket s) as [b|]; [|exact H1].
  destruct H1 as [H1|[H1 Hid]].
  - by apply lookup_store_status_find.
  - right. split; [|exact Hid].
    destruct (lookup_store_status_find job_id v σ1 b r _ H1) as [H|[H _]];
      exact H.
Qed.

(** ** Every reachable session is well formed *)

Lemma wf_initial : wf initial.
Proof.
  constructor; cbn.
  - intros r Hr. inversion Hr.
  - intros h b r Hb. by rewrite lookup_empty in Hb.
  - constructor.
  - intros h b Hb. by rewrite lookup_empty in Hb.
  - intros h1 h2 b1 b2 r _ Hb. by rewrite lookup_empty in Hb.
  - lia.
  - intros h b Hb. by rewrite lookup_empty in Hb.
  - exists [], [], []. split_and!; try reflexivity. intros r Hr. inversion Hr.
Qed.

(** Signing in as anybody and loading the history keeps a session well
    formed: the list loaded is the whole bucket. *)
Lemma wf_load_user_history tok usr s :
  wf s →
  wf (state_of (load_user_history
                  (set_current_user_hash usr (set_api_token tok s)))).
Proof.
  intros [Hv Hbv Hnd Hbnd Hdisj Hl Hbl _].
  rewrite load_user_history_run. unfold state_of; cbn [fst snd].
  set (s1 := set_current_user_hash usr (set_api_token tok s)).
  destruct (current_bucket s1) as [b|] eqn:Eb.
  - pose proof Eb as (h & _ & _ & Hb)%current_bucket_Some. cbn in Hb.
    constructor; cbn; try assumption.
    + intros r Hr. eapply Hbv; eassumption.
    + eapply Hbnd; eassumption.
    + eapply Hbl; eassumption.
    + exists b, [], []. change (current_bucket _) with (current_bucket s1).
      rewrite Eb, app_nil_r. split_and!; try reflexivity.
      intros r Hr. inversion Hr.
  - constructor; try assumption.
    exists [], (job_history s), []. rewrite Eb. split_and!; try reflexivity.
    intros r _ Hr. inversion Hr.
Qed.

Lemma wf_logout s : wf s → wf (state_of (logout s)).
Proof.
  intros [Hv Hbv Hnd Hbnd Hdisj Hl Hbl _].
  rewrite logout_run. unfold state_of; cbn [fst snd].
  constructor; cbn; try assumption.
  - intros r Hr. inversion Hr.
  - constructor.
  - lia.
  - exists [], [], []. split_and!; try reflexivity. intros r Hr. inversion Hr.
Qed.

Lemma wf_update_status job_id status_data s :
  wf s → wf (state_of (update_status job_id status_data s)).
Proof.
  intros [Hv Hbv Hnd Hbnd Hdisj Hl Hbl Hsplit].
  destruct (update_status_frame job_id status_data s)
    as (Ht & Hj & Hg & Hu & Hlen).
  set (s' := state_of (update_status job_id status_data s)) in *.
  assert (current_bucket s' = current_bucket s) as Hcb.
  { unfold current_bucket, user_key. by rewrite Hu, Hg. }
  constructor; rewrite ?Hj, ?Hg, ?Hlen, ?Hcb; assumption.
Qed.

(** The step that keeps [job_history] split along the current bucket when
    a new object is put in front of both and both are cut. *)
Lemma split_after_insert (r : ref) (P Q R : list ref) :
  r ∉ Q → (∀ x, x ∈ Q → x ∉ P ++ R) →
  ∃ P' Q' R',
    take 20 (r :: P ++ Q) = P' ++ Q' ∧
    take 100 (r :: P ++ R) = P' ++ R' ∧
    ∀ x, x ∈ Q' → x ∉ P' ++ R'.
Proof.
  intros Hr HQ.
  exists (take 20 (r :: P)), (take (20 - length (r :: P)) Q),
    (drop 20 (take 100 (r :: P)) ++ take (100 - length (r :: P)) R).
  split_and!.
  - apply (take_app (r :: P) Q 20).
  - rewrite app_assoc.
    replace (take 20 (r :: P)) with (take 20 (take 100 (r :: P)))
      by (rewrite take_take; reflexivity).
    rewrite take_drop. apply (take_app (r :: P) R 100).
  - intros x Hx%subseteq_take Hin.
    assert (x ∈ r :: P ++ R) as [->|Hin']%elem_of_cons; [|done|by apply (HQ x)].
    apply elem_of_app in Hin as [Hin|Hin].
    + apply subseteq_take in Hin.
      apply elem_of_cons in Hin as [->|Hin]; [left|right].
      apply elem_of_app. by left.
    + apply elem_of_app in Hin as [Hin%subseteq_drop%subseteq_take
                                   |Hin%subseteq_take].
      * apply elem_of_cons in Hin as [->|Hin]; [left|right].
        apply elem_of_app. by left.
      * right. apply elem_of_app. by right.
Qed.

Lemma current_bucket_saved e s :
  current_bucket (saved e s)
  = match user_key s with
    | Some h => Some (take 100 (length (objects s)
                                  :: default [] (global_history s !! h)))
    | None => None
    end.
Proof.
  unfold current_bucket.
  replace (user_key (saved e s)) with (user_key s)
    by (unfold user_key; by rewrite saved_current_user_hash).
  rewrite saved_global_history.
  destruct (user_key s) as [h|]; cbn; [|reflexivity].
  apply lookup_insert_eq.
Qed.

Lemma saved_bucket_lookup e s h b :
  global_history (saved e s) !! h = Some b →
  (user_key s = Some h ∧
   b = take 100 (length (objects s) :: default [] (global_history s !! h))) ∨
  (user_key s ≠ Some h ∧ global_history s !! h = Some b).
Proof.
  rewrite saved_global_history.
  destruct (user_key s) as [h0|]; [|intros H; right; by split].
  destruct (decide (h0 = h)) as [->|Hne].
  - rewrite lookup_insert_eq. intros [= <-]. by left.
  - rewrite lookup_insert_ne by done. intros H. right. split; congruence.
Qed.

Lemma wf_saved e s : wf s → wf (saved e s).
Proof.
  intros [Hv Hbv Hnd Hbnd Hdisj Hl Hbl (P & Q & R & HP & HB & HQ)].
  set (r := length (objects s)).
  assert (r ∉ job_history s) as Hfresh by (intros H%Hv; unfold r in H; lia).
  assert (∀ h x, x ∈ default [] (global_history s !! h) →
                 x < r ∧ ∃ b, global_history s !! h = Some b ∧ x ∈ b)
    as Hold.
  { intros h x Hx. destruct (global_history s !! h) as [b|] eqn:Eb;
      [|inversion Hx]. split; [eapply Hbv; eassumption | eauto]. }
  assert (∀ h, NoDup (r :: default [] (global_history s !! h))) as Hnd'.
  { intros h. apply NoDup_cons. split.
    - intros [H _]%Hold. lia.
    - destruct (global_history s !! h) as [b|] eqn:Eb;
        [eapply Hbnd, Eb | constructor]. }
  assert (∀ h x, x ∈ take 100 (r :: default [] (global_history s !! h)) →
                 x = r ∨ ∃ b, global_history s !! h = Some b ∧ x ∈ b)
    as Hnew.
  { intros h x [->|Hx]%subseteq_take%elem_of_cons; [by left|right].
    by apply Hold. }
  constructor; rewrite ?saved_objects, ?saved_job_history, ?length_app;
    fold r; cbn [length].
  - intros x [->|Hx]%subseteq_take%elem_of_cons; [lia|].
    apply Hv in Hx. lia.
  - intros h b x [[_ ->]|[_ Hb]]%saved_bucket_lookup Hx.
    + apply Hnew in Hx as [->|(b & Hb & Hx)]; [lia|].
      pose proof (Hbv _ _ _ Hb Hx). lia.
    + pose proof (Hbv _ _ _ Hb Hx). lia.
  - eapply sublist_NoDup; [|apply sublist_take].
    apply NoDup_cons. by split.
  - intros h b [[_ ->]|[_ Hb]]%saved_bucket_lookup.
    + eapply sublist_NoDup; [apply Hnd' | apply sublist_take].
    + eapply Hbnd, Hb.
  - intros h1 h2 b1 b2 x Hne
      [[Hk1 ->]|[Hk1 Hb1]]%saved_bucket_lookup
      [[Hk2 ->]|[Hk2 Hb2]]%saved_bucket_lookup Hx1 Hx2.
    + congruence.
    + apply Hnew in Hx1 as [->|(b1 & Hb1 & Hx1)].
      * pose proof (Hbv _ _ _ Hb2 Hx2). lia.
      * by apply (Hdisj h1 h2 b1 b2 x).
    + apply Hnew in Hx2 as [->|(b2 & Hb2 & Hx2)].
      * pose proof (Hbv _ _ _ Hb1 Hx1). lia.
      * by apply (Hdisj h1 h2 b1 b2 x).
    + by apply (Hdisj h1 h2 b1 b2 x).
  - rewrite length_take. lia.
  - intros h b [[_ ->]|[_ Hb]]%saved_bucket_lookup.
    + rewrite length_take. lia.
    + eapply Hbl, Hb.
  - rewrite current_bucket_saved, HP.
    assert (r ∉ Q) as HrQ.
    { intros H. apply Hfresh. rewrite HP. apply elem_of_app. by right. }
    unfold current_bucket in HB.
    destruct (user_key s) as [h|]; cbn in HB |- *.
    + fold r. rewrite HB. by apply split_after_insert.
    + destruct (split_after_insert r P Q R HrQ HQ) as (P' & Q' & R' & H1 & _).
      exists [], (take 20 (r :: P ++ Q)), []. split_and!; try reflexivity.
      intros x _ Hx. inversion Hx.
Qed.

Lemma wf_save_job_to_history now job_data s :
  wf s → wf (state_of (save_job_to_history now job_data s)).
Proof.
  intros Hwf. destruct (first_missing_key job_data) as [k|] eqn:E.
  - by rewrite (save_job_to_history_missing _ _ _ _ E).
  - pose proof (proj1 (first_missing_key_None job_data) E) as H.
    destruct (H "id") as [a Ha]; [repeat constructor|].
    destruct (H "title") as [b Hb]; [repeat constructor|].
    destruct (H "company") as [c Hc]; [repeat constructor|].
    destruct (H "status") as [d Hd]; [repeat constructor|].
    rewrite (save_job_to_history_run _ _ _ _ _ _ _ Ha Hb Hc Hd).
    by apply wf_saved.
Qed.

Lemma session_eta s :
  set_current_user_hash (current_user_hash s) (set_api_token (api_token s) s)
  = s.
Proof. by destruct s. Qed.

Lemma wf_after s o : wf s → wf (after s o).
Proof.
  intros Hwf. unfold after. destruct o as [token| |now job_data|job_id sd|];
    cbn [exec].
  - rewrite authenticate_run. destruct (truthy token); [|exact Hwf].
    by apply wf_load_user_history.
  - by apply wf_logout.
  - by apply wf_save_job_to_history.
  - by apply wf_update_status.
  - rewrite <- (session_eta s) at 1. by apply wf_load_user_history.
Qed.

Theorem reachable_wf s : reachable s → wf s.
Proof.
  induction 1 as [|s o _ IH]; [apply wf_initial | by apply wf_after].
Qed.

Lemma reachable_run_ops ops s : reachable s → reachable (run_ops ops s).
Proof.
  revert s. induction ops as [|o ops IH]; intros s Hs; [exact Hs|].
  cbn. apply IH. by constructor.
Qed.

(** ** Status update *)

(** C2.  In a reachable session, the two loops of the status update leave
    every list of references as it was.  When no record shown by
    [job_history] and none shown by the current user's bucket has the id,
    the whole session is unchanged and nothing is raised, whatever the
    payload.  When the payload has a status [v], the records shown by
    [job_history], and those shown by the current user's bucket, are the
    ones before with the status of the first record carrying the id
    replaced by [v] ([set_first_status], which changes that one field of
    that one record: [set_first_status_spec]), and every object of the
    store is as before or differs by its status alone. *)
Theorem update_status_spec job_id status_data s :
  reachable s →
  let s' := state_of (update_status job_id status_data s) in
  ((∀ e, e ∈ records (objects s) (job_history s) → e_id e ≠ PStr job_id) →
   (∀ b e, current_bucket s = Some b → e ∈ records (objects s) b →
           e_id e ≠ PStr job_id) →
   update_status job_id status_data s = (inr tt, s, [])) ∧
  (∀ v, status_data !! "status" = Some v →
     result_of (update_status job_id status_data s) = inr tt ∧
     api_token s' = api_token s ∧
     current_user_hash s' = current_user_hash s ∧
     job_history s' = job_history s ∧
     global_history s' = global_history s ∧
     records (objects s') (job_history s')
     = set_first_status job_id v (records (objects s) (job_history s)) ∧
     (∀ b, current_bucket s = Some b →
           records (objects s') b
           = set_first_status job_id v (records (objects s) b)) ∧
     (∀ r e, objects s !! r = Some e →
             objects s' !! r = Some e ∨
             (objects s' !! r = Some (set_status v e) ∧
              e_id e = PStr job_id))).
Proof.
  intros Hreach s'. split.
  - intros H1 H2. apply update_status_no_match.
    + by apply find_job_None.
    + intros b Hb. apply find_job_None. intros e. by apply H2.
  - intros v Hv. subst s'. rewrite (update_status_run _ _ _ _ Hv).
    unfold state_of, result_of; cbn [fst snd].
    split_and!; try reflexivity; cbn [objects set_objects job_history].
    + destruct (reachable_wf s Hreach)
        as [_ _ Hnd Hbnd _ _ _ (P & Q & R & HP & HB & HQ)].
      unfold updated_objects.
      destruct (current_bucket s) as [b|] eqn:Eb;
        [|by apply records_store_status_first].
      cbn in HB. subst b.
      pose proof Eb as (h & _ & _ & Hb%Hbnd)%current_bucket_Some.
      rewrite find_job_store_status, HP.
      destruct (first_matches job_id (objects s) P Q R Hb HQ) as [<-|[H2 _]].
      * rewrite store_status_idem. apply records_store_status_first.
        by rewrite <- HP.
      * rewrite records_store_status_other by exact H2.
        apply records_store_status_first. by rewrite <- HP.
    + intros b Eb.
      destruct (reachable_wf s Hreach)
        as [_ _ Hnd Hbnd _ _ _ (P & Q & R & HP & HB & HQ)].
      unfold updated_objects. rewrite Eb in HB |- *. cbn in HB. subst b.
      pose proof Eb as (h & _ & _ & Hb%Hbnd)%current_bucket_Some.
      rewrite HP.
      destruct (first_matches job_id (objects s) P Q R Hb HQ) as [E|[_ H1]].
      * rewrite find_job_store_status, E, store_status_idem.
        by apply records_store_status_first.
      * rewrite (records_store_status_first job_id v _ _ Hb).
        f_equal. by apply records_store_status_other.
    + intros r e He. by apply lookup_updated_objects.
Qed.

Lemma update_status_spec_witness :
  let s := run_ops [Authenticate "abc123";
                    RecordJob "2025-01-01 10:00:00" (job_descriptor "job-1");
                    RecordJob "2025-01-01 10:05:00" (job_descriptor "job-2")]
             initial in
  let s' := state_of (update_status "job-1" {["status" := PStr "completed"]} s) in
  records (objects s') (job_history s')
  = [entry_of "2025-01-01 10:05:00" (PStr "job-2") (PStr "Q4 Call")
       (PStr "Acme") (PStr "processing");
     entry_of "2025-01-01 10:00:00" (PStr "job-1") (PStr "Q4 Call")
       (PStr "Acme") (PStr "completed")] ∧
  update_status "job-9" {["status" := PStr "completed"]} s = (inr tt, s, []).
Proof.
  intros s s'.
  assert (reachable s) as Hs by apply reachable_run_ops, reachable_initial.
  split.
  - destruct (update_status_spec "job-1" {["status" := PStr "completed"]} s Hs)
      as [_ H].
    destruct (H (PStr "completed") eq_refl) as (_ & _ & _ & _ & _ & Hrec & _).
    subst s'. rewrite Hrec. vm_compute. reflexivity.
  - destruct (update_status_spec "job-9" {["status" := PStr "completed"]} s Hs)
      as [H _].
    apply H.
    + apply Forall_forall, (bool_decide_unpack _). vm_compute. exact I.
    + intros b e Hb. revert e. apply Forall_forall.
      vm_compute in Hb. injection Hb as <-.
      apply (bool_decide_unpack _). vm_compute. exact I.
Defined.

(** ** The size of [job_history] *)

(** X24.  In every reachable session [job_history] holds at most 100
    entries: what [save_job_to_history] leaves has at most 20, what
    [load_user_history] copies is a bucket, and a bucket has at most
    100. *)
Lemma job_history_at_most_100 s : reachable s → length (job_history s) ≤ 100.
Proof. intros H. apply wf_history_length, reachable_wf, H. Qed.

(** C4, the code on the failing trace: sign in, submit 21 jobs, sign out,
    sign in again with the same token.  After the 21 submissions
    [job_history] holds 20 records, cut by [save_job_to_history]; after
    the second sign-in [load_user_history] has copied the whole bucket of
    21 records, uncut. *)
Theorem load_user_history_exceeds_20 :
  let before := run_ops (Authenticate "abc123" :: submissions 21) initial in
  let s := run_ops (relogin_trace "abc123" 21) initial in
  reachable s ∧
  length (job_history before) = 20 ∧
  job_history s = reverse (seq 0 21) ∧
  length (job_history s) = 21 ∧
  ¬ length (job_history s) ≤ 20.
Proof.
  cbv zeta. split; [apply reachable_run_ops, reachable_initial|].
  vm_compute. split_and!; try reflexivity. lia.
Qed.

(** ** Auto-refresh *)











(** ** Signing out and in again *)






Lemma records_length σ l :
  (∀ r, r ∈ l → r < length σ) → length (records σ l) = length l.
Proof.
  intros H. induction l as [|r l IH]; [reflexivity|].
  rewrite records_cons.
  destruct (lookup_lt_is_Some_2 σ r) as [e ->]; [apply H; left|].
  cbn. f_equal. apply IH. intros x Hx. apply H. by right.
Qed.

Lemma after_record_job now job_data s :
  first_missing_key job_data = None →
  after s (RecordJob now job_data) = saved (descriptor_entry now job_data) s.
Proof.
  intros E. pose proof (proj1 (first_missing_key_None job_data) E) as H.
  destruct (H "id") as [a Ha]; [repeat constructor|].
  destruct (H "title") as [b Hb]; [repeat constructor|].
  destruct (H "company") as [c Hc]; [repeat constructor|].
  destruct (H "status") as [d Hd]; [repeat constructor|].
  unfold after; cbn [exec].
  rewrite (save_job_to_history_run _ _ _ _ _ _ _ Ha Hb Hc Hd).
  unfold descriptor_entry. by rewrite Ha, Hb, Hc, Hd.
Qed.


Lemma after_authenticate token s :
  truthy token = true →
  let s1 := after s (Authenticate token) in
  api_token s1 = Some token ∧
  current_user_hash s1 = Some (get_user_hash token) ∧
  user_key s1 = Some (get_user_hash token) ∧
  global_history s1 = global_history s ∧
  objects s1 = objects s ∧
  job_history s1
  = default (job_history s) (global_history s !! get_user_hash token).
Proof.
  intros Ht. unfold after; cbn [exec].
  rewrite authenticate_run, Ht, load_user_history_run.
  unfold state_of; cbn [fst snd]. unfold current_bucket.
  rewrite user_key_authenticated. cbn.
  change (global_history (authenticated token s)) with (global_history s).
  pose proof (user_key_authenticated token s) as Hk.
  destruct (global_history s !! get_user_hash token); done.
Qed.

Lemma after_logout s :
  after s Logout
  = set_job_history [] (set_current_user_hash None (set_api_token None s)).
Proof. reflexivity. Qed.







(** * Further properties of the code

    ** The user identifier *)

Lemma hex_digit_in (n : Z) :
  MD5.hex_digit n ∈ list_ascii_of_string "0123456789abcdef".
Proof.
  unfold MD5.hex_digit. apply list_elem_of_In.
  destruct (nth_in_or_default (Z.to_nat n)
              (list_ascii_of_string "0123456789abcdef") "0"%char) as [H| ->].
  - exact H.
  - left. reflexivity.
Qed.

(** X1.  Whatever the token, the empty one included, the user identifier
    is 16 characters long, each a lower-case hexadecimal digit; so it is
    never empty and always passes the truth tests of
    [save_job_to_history] and [load_user_history]. *)
Theorem get_user_hash_hex (token : string) :
  String.length (get_user_hash token) = 16 ∧
  Forall (λ c, c ∈ list_ascii_of_string "0123456789abcdef")
         (list_ascii_of_string (get_user_hash token)) ∧
  truthy (get_user_hash token) = true.
Proof.
  split; [apply get_user_hash_length|]. split.
  - unfold get_user_hash, MD5.hexdigest, MD5.hex_of_state.
    destruct (MD5.digest (encode token)) as [[[a b] c] d].
    unfold MD5.hex_byte.
    cbn -[MD5.hex_digit Z.shiftr Z.land Z.mul Z.of_nat].
    repeat (constructor; [apply hex_digit_in|]). constructor.
  - apply truthy_true, get_user_hash_nonempty.
Qed.

(** ** MIME type of an uploaded file *)

Lemma str_split_no_sep sep x :
  sep ∉ list_ascii_of_string x → str_split sep x = [x].
Proof.
  induction x as [|c x IH]; cbn [str_split list_ascii_of_string]; [done|].
  intros H. rewrite bool_decide_eq_false_2.
  - rewrite IH; [reflexivity|]. intros Hin. apply H. by right.
  - intros ->. apply H. left.
Qed.

Lemma str_split_after_sep sep a b :
  ∃ piece pieces,
    str_split sep (a +:+ String sep b) = piece :: pieces ∧
    pieces ≠ [] ∧
    List.last pieces EmptyString = List.last (str_split sep b) EmptyString.
Proof.
  assert (∀ y, str_split sep y ≠ []) as Hne.
  { intros [|c y]; cbn [str_split]; [done|]. case_bool_decide; [done|].
    by destruct (str_split sep y). }
  induction a as [|c a (piece & pieces & E & Hp & Hl)].
  - change (EmptyString +:+ String sep b) with (String sep b).
    cbn [str_split]. rewrite bool_decide_eq_true_2 by done. eauto.
  - change (String c a +:+ String sep b)
      with (String c (a +:+ String sep b)).
    cbn [str_split]. rewrite E. case_bool_decide.
    + exists EmptyString, (piece :: pieces). split_and!; try done.
      destruct pieces; [done | exact Hl].
    + exists (String c piece), pieces. done.
Qed.

Lemma last_str_split sep stem ext :
  sep ∉ list_ascii_of_string ext →
  List.last (str_split sep (stem +:+ String sep ext)) EmptyString = ext ∧
  List.last (str_split sep ext) EmptyString = ext.
Proof.
  intros H. rewrite (str_split_no_sep _ _ H).
  destruct (str_split_after_sep sep stem ext) as (piece & pieces & -> & Hp & Hl).
  rewrite (str_split_no_sep _ _ H) in Hl. split; [|reflexivity].
  destruct pieces; [done | exact Hl].
Qed.

Lemma mime_types_lookup ext :
  default "audio/mpeg" (mime_types !! ext)
  = if bool_decide (ext = "mp4") then "audio/mp4" else "audio/mpeg".
Proof.
  unfold mime_types. case_bool_decide as E.
  - subst ext. reflexivity.
  - destruct (decide (ext = "mp3")) as [->|E3]; [reflexivity|].
    rewrite !lookup_insert_ne, lookup_empty by done. reflexivity.
Qed.

(** X2.  The MIME type depends on the text after the last dot of the file
    name, or on the whole name when it has no dot: it is [audio/mp4] when
    that text is [mp4] in any letter case and [audio/mpeg] in every other
    case, an unknown or missing extension included. *)
Theorem get_mime_type_extension (stem ext : string) :
  "."%char ∉ list_ascii_of_string ext →
  get_mime_type (stem +:+ "." +:+ ext)
  = (if bool_decide (str_lower ext = "mp4")
     then "audio/mp4" else "audio/mpeg") ∧
  get_mime_type ext
  = (if bool_decide (str_lower ext = "mp4")
     then "audio/mp4" else "audio/mpeg").
Proof.
  intros H. unfold get_mime_type.
  change ("." +:+ ext) with (String "."%char ext).
  destruct (last_str_split "." stem ext H) as [-> ->].
  split; apply mime_types_lookup.
Qed.

Lemma get_mime_type_extension_witness :
  get_mime_type "call.Q4.MP4" = "audio/mp4" ∧
  get_mime_type "mp4" = "audio/mp4" ∧
  get_mime_type "notes.txt" = "audio/mpeg" ∧
  get_mime_type "README" = "audio/mpeg".
Proof.
  assert (∀ x, bool_decide ("."%char ∉ list_ascii_of_string x) = true →
               "."%char ∉ list_ascii_of_string x) as Hd
    by (intros x; apply bool_decide_eq_true_1).
  split_and!.
  - apply (get_mime_type_extension "call.Q4" "MP4" (Hd "MP4" eq_refl)).
  - apply (get_mime_type_extension "call" "mp4" (Hd "mp4" eq_refl)).
  - apply (get_mime_type_extension "notes" "txt" (Hd "txt" eq_refl)).
  - apply (get_mime_type_extension "x" "README" (Hd "README" eq_refl)).
Defined.

(** ** Export query string, the reverse way *)

(** X3.  The query string tells the five toggles apart: two settings of
    the export options that differ give different query strings. *)
Theorem export_query_string_injective (a1 a2 a3 a4 a5 b1 b2 b3 b4 b5 : bool) :
  export_query_string a1 a2 a3 a4 a5 = export_query_string b1 b2 b3 b4 b5 →
  (a1, a2, a3, a4, a5) = (b1, b2, b3, b4, b5).
Proof.
  destruct a1, a2, a3, a4, a5, b1, b2, b3, b4, b5;
    intros H; first [reflexivity | vm_compute in H; discriminate H].
Qed.

Lemma export_query_string_injective_witness :
  (true, false, false, false, true) = (true, false, false, false, true).
Proof.
  apply (export_query_string_injective true false false false true
           true false false false true).
  vm_compute. reflexivity.
Defined.

(** ** API request wrapper: every outcome *)

Lemma make_api_request_cases requests method endpoint s :
  make_api_request requests method endpoint s
  = match
      (if bool_decide (method = "GET")
       then Some (requests_get requests (API_BASE_URL +:+ endpoint))
       else if bool_decide (method = "POST")
            then Some (requests_post requests (API_BASE_URL +:+ endpoint))
            else None)
    with
    | Some (Completed r) => (inr (Some r), s, [])
    | Some (Raised e) =>
        (inr None, s, [st_error ("API Request Error: " +:+ str_exn e)])
    | None =>
        (inr None, s,
         [st_error ("API Request Error: Unsupported method: " +:+ method)])
    end.
Proof.
  unfold make_api_request, try_except, mbind, M_bind.
  case_bool_decide; [|case_bool_decide].
  - by destruct (requests_get requests _).
  - by destruct (requests_post requests _).
  - reflexivity.
Qed.

(** X4.  [make_api_request] never raises and never changes the session:
    it returns a response and shows nothing, or returns [None] and shows
    exactly one error; and it consults the network at most for the one
    URL made of the base and the endpoint, so two networks that agree
    there give the same outcome. *)
Theorem make_api_request_total requests method endpoint s :
  ((∃ r, make_api_request requests method endpoint s = (inr (Some r), s, []))
   ∨ (∃ msg, make_api_request requests method endpoint s
             = (inr None, s, [st_error ("API Request Error: " +:+ msg)]))) ∧
  (∀ requests',
     requests_get requests' (API_BASE_URL +:+ endpoint)
     = requests_get requests (API_BASE_URL +:+ endpoint) →
     requests_post requests' (API_BASE_URL +:+ endpoint)
     = requests_post requests (API_BASE_URL +:+ endpoint) →
     make_api_request requests' method endpoint s
     = make_api_request requests method endpoint s).
Proof.
  split.
  - rewrite make_api_request_cases.
    case_bool_decide; [|case_bool_decide].
    + destruct (requests_get requests _); eauto.
    + destruct (requests_post requests _); eauto.
    + eauto.
  - intros requests' Hg Hp. rewrite !make_api_request_cases, Hg, Hp.
    reflexivity.
Qed.

(** ** Upload form data *)

(** X5.  A speakers field that does not parse as JSON is dropped with one
    warning and changes nothing else: the form data sent is the data of
    the same form with the speakers field left empty, it has no
    [speakers] entry, and the four processing flags are the strings
    [true] or [false]. *)
Theorem upload_data_invalid_speakers json_normalise (f : upload_form) :
  f_speakers f ≠ EmptyString → json_normalise (f_speakers f) = None →
  upload_data json_normalise f
  = ((upload_data json_normalise (without_speakers f)).1,
     [st_warning "Invalid speakers JSON format, skipping..."]) ∧
  (upload_data json_normalise (without_speakers f)).2 = [] ∧
  (upload_data json_normalise f).1 !! "speakers" = None ∧
  (upload_data json_normalise f).1 !! "title" = Some (f_title f) ∧
  (upload_data json_normalise f).1 !! "company" = Some (f_company f) ∧
  ∀ k, k ∈ ["clean_audio"; "clean_transcript"; "speaker_diarization";
            "fact_checking"] →
       (upload_data json_normalise f).1 !! k = Some "true" ∨
       (upload_data json_normalise f).1 !! k = Some "false".
Proof.
  intros Hs%truthy_true Hj. unfold upload_data. rewrite Hs, Hj. cbn [fst snd without_speakers f_speakers truthy
    f_title f_company f_entities f_call_type f_time_period clean_audio
    clean_transcript speaker_diarization fact_checking].
  split_and!; try reflexivity.
  - destruct (truthy (f_call_type f)), (truthy (f_time_period f));
      by simplify_map_eq.
  - destruct (truthy (f_call_type f)), (truthy (f_time_period f));
      by simplify_map_eq.
  - destruct (truthy (f_call_type f)), (truthy (f_time_period f));
      by simplify_map_eq.
  - intros k Hk.
    repeat (apply elem_of_cons in Hk as [->|Hk]);
      [..|by apply elem_of_nil in Hk];
      destruct (truthy (f_call_type f)), (truthy (f_time_period f)),
        (clean_audio f), (clean_transcript f), (speaker_diarization f),
        (fact_checking f); simplify_map_eq; auto.
Qed.

Lemma upload_data_invalid_speakers_witness :
  let f := {| uploaded_file := Some "call.mp3"; f_title := "Q4 Call";
              f_company := "Acme"; f_entities := EmptyString;
              f_speakers := "[{"; f_call_type := "earnings call";
              f_time_period := EmptyString; clean_audio := true;
              clean_transcript := true; speaker_diarization := true;
              fact_checking := false |} in
  (upload_data (λ _, None) f).2
  = [st_warning "Invalid speakers JSON format, skipping..."] ∧
  (upload_data (λ _, None) f).1 !! "speakers" = None ∧
  (upload_data (λ _, None) f).1 !! "fact_checking" = Some "false".
Proof.
  intros f.
  assert (f_speakers f ≠ EmptyString) as Hs by discriminate.
  destruct (upload_data_invalid_speakers (λ _, None) f Hs eq_refl)
    as (E & _ & Hsp & _).
  split_and!; [by rewrite E | exact Hsp | reflexivity].
Defined.

(** ** Upload Audio tab: the submit handler *)

Lemma emit_all_run out s : emit_all out s = (inr tt, s, out).
Proof.
  induction out as [|x out IH]; [reflexivity|].
  cbn [emit_all]. unfold mbind, M_bind, emit. by rewrite IH.
Qed.

Lemma show_job_run job_data s :
  first_missing_key job_data = None → show_job job_data s = (inr tt, s, []).
Proof.
  intros E. pose proof (proj1 (first_missing_key_None job_data) E) as H.
  destruct (H "id") as [a Ha]; [repeat constructor|].
  destruct (H "title") as [b Hb]; [repeat constructor|].
  destruct (H "company") as [c Hc]; [repeat constructor|].
  destruct (H "status") as [d Hd]; [repeat constructor|].
  unfold show_job, getitem, mbind, M_bind. by rewrite Ha, Hb, Hc, Hd.
Qed.

Lemma save_job_to_history_cases now job_data s :
  save_job_to_history now job_data s
  = match first_missing_key job_data with
    | None => (inr tt, saved (descriptor_entry now job_data) s, [])
    | Some k => (inl (KeyError k), s, [])
    end.
Proof.
  destruct (first_missing_key job_data) as [k|] eqn:E.
  - by apply save_job_to_history_missing.
  - pose proof (after_record_job now job_data s E) as H.
    unfold after, state_of in H; cbn [exec] in H.
    pose proof (proj1 (first_missing_key_None job_data) E) as Hk.
    destruct (Hk "id") as [a Ha]; [repeat constructor|].
    destruct (Hk "title") as [b Hb]; [repeat constructor|].
    destruct (Hk "company") as [c Hc]; [repeat constructor|].
    destruct (Hk "status") as [d Hd]; [repeat constructor|].
    rewrite (save_job_to_history_run _ _ _ _ _ _ _ Ha Hb Hc Hd) in H |- *.
    cbn in H. by rewrite H.
Qed.

Lemma submit_job_valid requests json_normalise now f s name :
  uploaded_file f = Some name → f_title f ≠ EmptyString →
  f_company f ≠ EmptyString →
  submit_job requests json_normalise now f s
  = submitted requests now (upload_data json_normalise f).2 s.
Proof.
  intros Hf Ht%truthy_true Hc%truthy_true.
  unfold submit_job, submitted. rewrite Hf, Ht, Hc. cbn [negb].
  generalize (upload_data json_normalise f).2. intros w.
  unfold mbind at 1, M_bind at 1. rewrite emit_all_run.
  unfold mbind at 1, M_bind at 1. rewrite make_api_request_cases.
  rewrite bool_decide_eq_false_2 by discriminate.
  rewrite bool_decide_eq_true_2 by reflexivity.
  destruct (requests_post requests _) as [r|e]; [|reflexivity].
  destruct (response_truthy r
            && (bool_decide (status_code r = 200%Z)
                || bool_decide (status_code r = 201%Z))).
  - unfold response_json, mbind, M_bind.
    destruct (json r) as [jd|]; [|cbn; by rewrite !app_nil_r].
    cbn -[save_job_to_history show_job saved descriptor_entry
          first_missing_key].
    rewrite save_job_to_history_cases.
    destruct (first_missing_key jd) eqn:E; [by rewrite !app_nil_r|].
    rewrite (show_job_run _ _ E). reflexivity.
  - unfold emit. by destruct (response_truthy r).
Qed.

(** X6.  The submit handler checks the form before anything else, in the
    order file, title, company: when one is missing it shows the
    message of the first missing one and stops there, with the session
    as it was; the outcome mentions no network and no clock, so no
    request is sent. *)
Theorem submit_job_validation requests json_normalise now (f : upload_form)
    s :
  (uploaded_file f = None →
   submit_job requests json_normalise now f s
   = (inr tt, s, [st_error "Please select an audio file"])) ∧
  (is_Some (uploaded_file f) → f_title f = EmptyString →
   submit_job requests json_normalise now f s
   = (inr tt, s, [st_error "Please enter a title"])) ∧
  (is_Some (uploaded_file f) → f_title f ≠ EmptyString →
   f_company f = EmptyString →
   submit_job requests json_normalise now f s
   = (inr tt, s, [st_error "Please enter a company name"])).
Proof.
  unfold submit_job. split_and!.
  - by intros ->.
  - intros [name ->] ->. reflexivity.
  - intros [name ->] Ht%truthy_true ->. by rewrite Ht.
Qed.

Lemma submitted_state requests now w s :
  state_of (submitted requests now w s) = s ∨
  ∃ r job_data,
    requests_post requests (API_BASE_URL +:+ "/workflow") = Completed r ∧
    (status_code r = 200%Z ∨ status_code r = 201%Z) ∧
    json r = Some job_data ∧ first_missing_key job_data = None ∧
    submitted requests now w s
    = (inr tt, saved (descriptor_entry now job_data) s,
       w ++ [st_success "✅ Transcription job submitted successfully!"]).
Proof.
  unfold submitted.
  destruct (requests_post requests _) as [r|e] eqn:Er; [|by left].
  destruct (response_truthy r) eqn:Et; cbn [andb]; [|by left].
  destruct (bool_decide (status_code r = 200%Z)
            || bool_decide (status_code r = 201%Z)) eqn:Ec; [|by left].
  destruct (json r) as [jd|] eqn:Ej; [|by left].
  destruct (first_missing_key jd) eqn:E; [by left|].
  right. exists r, jd. split_and!; try done.
  apply orb_true_iff in Ec as [Ec|Ec]; apply bool_decide_eq_true in Ec; auto.
Qed.

(** X7.  The submit handler changes the session in one case only: the
    form is valid, the POST to [/workflow] completed with status 200 or
    201, and the body is a JSON object with the four keys
    [save_job_to_history] reads; then the state is the one
    [save_job_to_history] leaves and the success message is the last
    thing shown.  In every other case, a failed request, an error
    status, a body that is not JSON or lacks a key, the session is
    exactly as before. *)
Theorem submit_job_changes_history_only_on_success requests json_normalise
    now (f : upload_form) s :
  state_of (submit_job requests json_normalise now f s) = s ∨
  ∃ r job_data,
    is_Some (uploaded_file f) ∧ f_title f ≠ EmptyString ∧
    f_company f ≠ EmptyString ∧
    requests_post requests (API_BASE_URL +:+ "/workflow") = Completed r ∧
    (status_code r = 200%Z ∨ status_code r = 201%Z) ∧
    json r = Some job_data ∧ first_missing_key job_data = None ∧
    submit_job requests json_normalise now f s
    = (inr tt, saved (descriptor_entry now job_data) s,
       (upload_data json_normalise f).2
         ++ [st_success "✅ Transcription job submitted successfully!"]).
Proof.
  destruct (uploaded_file f) as [name|] eqn:Hf; [|left; unfold submit_job;
    by rewrite Hf].
  destruct (decide (f_title f = EmptyString)) as [Ht|Ht].
  { left. unfold submit_job. by rewrite Hf, Ht. }
  destruct (decide (f_company f = EmptyString)) as [Hc|Hc].
  { left. unfold submit_job. apply truthy_true in Ht. by rewrite Hf, Ht, Hc. }
  rewrite (submit_job_valid _ _ _ _ _ _ Hf Ht Hc).
  destruct (submitted_state requests now (upload_data json_normalise f).2 s)
    as [H|(r & jd & H1 & H2 & H3 & H4 & H5)]; [by left|].
  right. exists r, jd. split_and!; eauto.
Qed.

(** ** Download Transcript tab *)

Lemma response_truthy_false r : response_truthy r = false ↔ error_status r.
Proof.
  unfold response_truthy, error_status. rewrite negb_false_iff, andb_true_iff.
  rewrite Z.leb_le, Z.ltb_lt. done.
Qed.

Lemma download_transcript_cases requests timestamp download_job_id
    format_type b1 b2 b3 b4 b5 s :
  download_transcript requests timestamp download_job_id format_type
    b1 b2 b3 b4 b5 s
  = if truthy download_job_id then
      match requests_get requests
              (export_url download_job_id format_type b1 b2 b3 b4 b5) with
      | Completed r =>
          if response_truthy r && bool_decide (status_code r = 200%Z) then
            (inr (Some {| file_name :=
                            export_file_name timestamp download_job_id
                              format_type;
                          mime := export_mime format_type |}), s,
             [st_success ("✅ Transcript ready for download as "
                            +:+ export_file_name timestamp download_job_id
                                  format_type)])
          else if response_truthy r then
            (inr None, s,
             [st_error
                (if bool_decide (status_code r = 404%Z)
                 then "Transcript not found. Make sure the job is completed."
                 else "Error " +:+ pretty (status_code r) +:+ ": "
                        +:+ text r)])
          else (inr None, s, [st_error "Failed to connect to the API"])
      | Raised e =>
          (inr None, s,
           [st_error ("API Request Error: " +:+ str_exn e);
            st_error "Failed to connect to the API"])
      end
    else (inr None, s, [st_warning "Please enter a job ID"]).
Proof.
  unfold download_transcript, export_url.
  destruct (truthy download_job_id); [|reflexivity].
  unfold mbind at 1, M_bind at 1. rewrite make_api_request_cases.
  rewrite bool_decide_eq_true_2 by reflexivity.
  destruct (requests_get requests _) as [r|e]; [|reflexivity].
  destruct (response_truthy r); cbn [andb]; [|reflexivity].
  case_bool_decide; [reflexivity|].
  by case_bool_decide.
Qed.


(** X9.  The message [Transcript not found. Make sure the job is
    completed.] is never shown, whatever the server answers: the test
    for status 404 sits under [elif response:], and a response with an
    error status is false, so a 404 is reported as
    [Failed to connect to the API]. *)
Theorem download_transcript_not_found_unreachable requests timestamp
    download_job_id format_type b1 b2 b3 b4 b5 s :
  let run := download_transcript requests timestamp download_job_id
               format_type b1 b2 b3 b4 b5 s in
  (st_error "Transcript not found. Make sure the job is completed."
     ∉ effects_of run) ∧
  (∀ r, download_job_id ≠ EmptyString →
        requests_get requests
          (export_url download_job_id format_type b1 b2 b3 b4 b5)
        = Completed r →
        status_code r = 404%Z →
        run = (inr None, s, [st_error "Failed to connect to the API"])).
Proof.
  cbv zeta. rewrite download_transcript_cases. split.
  - destruct (truthy download_job_id);
      [|by intros [=]%list_elem_of_singleton].
    destruct (requests_get requests _) as [r|e].
    + destruct (response_truthy r) eqn:Etr; cbn [andb].
      * case_bool_decide as Ec;
          [by intros [=]%list_elem_of_singleton|].
        case_bool_decide as E4; [|by intros [=]%list_elem_of_singleton].
        exfalso. unfold response_truthy in Etr. rewrite E4 in Etr.
        discriminate Etr.
      * by intros [=]%list_elem_of_singleton.
    + unfold effects_of; cbn [snd].
      intros [[=]|[=]%list_elem_of_singleton]%elem_of_cons.
  - intros r Ht%truthy_true Er Ec. rewrite Ht, Er.
    unfold response_truthy. rewrite Ec. reflexivity.
Qed.

(** ** Check Status tab: every outcome *)

Lemma show_status_state status_data s :
  ∃ r, show_status status_data s = (r, s, []).
Proof.
  unfold show_status, getitem, mbind, M_bind, raise, mret, M_ret.
  destruct (status_data !! "status") as [[]|]; eauto.
  destruct (status_data !! "id"); eauto.
  destruct (status_data !! "title"); eauto.
  destruct (status_data !! "company"); eauto.
Qed.

Lemma auto_refresh_logic_state auto_refresh status_data s :
  ∃ r out, auto_refresh_logic auto_refresh status_data s = (r, s, out) ∧
    (out = [] ∨
     (out = [time_sleep 5; st_rerun] ∧ auto_refresh = true ∧
      status_data !! "status" = Some (PStr "processing"))).
Proof.
  unfold auto_refresh_logic, getitem, mbind, M_bind, raise, mret, M_ret.
  destruct auto_refresh; [|eauto].
  destruct (status_data !! "status") as [v|] eqn:Ev; [|eauto].
  case_bool_decide as E; [|eauto]. subst v.
  do 2 eexists. split; [reflexivity|]. right. done.
Qed.

Lemma update_first_effects job_id status_data l s :
  effects_of (update_first job_id status_data l s) = [].
Proof. rewrite update_first_run. by repeat case_match. Qed.

Lemma update_status_shape job_id status_data s :
  ∃ r, update_status job_id status_data s
       = (r, state_of (update_status job_id status_data s), []).
Proof.
  assert (effects_of (update_status job_id status_data s) = []) as H.
  { unfold update_status, mbind, M_bind, get.
    pose proof (update_first_effects job_id status_data (job_history s) s)
      as H1.
    destruct (update_first job_id status_data (job_history s) s)
      as [[[e|[]] s1] out1]; unfold effects_of in *; cbn [snd] in *;
      [exact H1|subst out1].
    destruct (user_key s1) as [h|]; [|reflexivity].
    destruct (global_history s1 !! h) as [b|]; [|reflexivity].
    pose proof (update_first_effects job_id status_data b s1) as H2.
    destruct (update_first job_id status_data b s1) as [[r2 s2] out2].
    unfold effects_of in H2; cbn [snd] in H2. by subst out2. }
  destruct (update_status job_id status_data s) as [[r s'] out].
  unfold effects_of in H; cbn [snd] in H. subst out. by exists r.
Qed.

Lemma on_status_ok_shape auto_refresh job_id status_data s :
  ∃ r out, on_status_ok auto_refresh job_id status_data s
           = (r, state_of (update_status job_id status_data s), out) ∧
    (out = [] ∨
     (out = [time_sleep 5; st_rerun] ∧ auto_refresh = true ∧
      status_data !! "status" = Some (PStr "processing"))).
Proof.
  unfold on_status_ok, mbind, M_bind.
  destruct (update_status_shape job_id status_data s) as [r ->].
  unfold state_of; cbn [fst snd]. set (s' := (update_status _ _ s).1.2).
  destruct r as [e|[]]; [eauto|].
  destruct (show_status_state status_data s') as [r2 ->].
  destruct r2 as [e|[]]; [eauto|].
  destruct (auto_refresh_logic_state auto_refresh status_data s')
    as (r3 & out & -> & Hout).
  eauto.
Qed.

Lemma check_status_tab_cases requests clicked auto_refresh job_id s :
  check_status_tab requests clicked auto_refresh job_id s
  = if clicked || auto_refresh then
      if truthy job_id then
        match requests_get requests (status_url job_id) with
        | Completed r =>
            if response_truthy r && bool_decide (status_code r = 200%Z) then
              match json r with
              | Some status_data =>
                  on_status_ok auto_refresh job_id status_data s
              | None => (inl (ValueError "Expecting value"), s, [])
              end
            else if response_truthy r then
              (inr tt, s,
               [st_error ("Error " +:+ pretty (status_code r) +:+ ": "
                            +:+ text r)])
            else (inr tt, s, [st_error "Failed to connect to the API"])
        | Raised e =>
            (inr tt, s,
             [st_error ("API Request Error: " +:+ str_exn e);
              st_error "Failed to connect to the API"])
        end
      else (inr tt, s, [st_warning "Please enter a job ID"])
    else (inr tt, s, []).
Proof.
  unfold check_status_tab, status_url.
  destruct (clicked || auto_refresh); [|reflexivity].
  destruct (truthy job_id); [|reflexivity].
  unfold mbind at 1, M_bind at 1. rewrite make_api_request_cases.
  rewrite bool_decide_eq_true_2 by reflexivity.
  destruct (requests_get requests _) as [r|e]; [|reflexivity].
  destruct (response_truthy r && bool_decide (status_code r = 200%Z)).
  - unfold response_json. destruct (json r) as [sd|]; [|reflexivity].
    unfold mbind, M_bind, mret, M_ret.
    by destruct (on_status_ok auto_refresh job_id sd s) as [[[?|?] ?] ?].
  - by destruct (response_truthy r).
Qed.

(** X10.  A run of the Check Status tab touches the history and may ask
    for a rerun in one case only: the button or the auto-refresh box is
    set, the job id is not empty, and the GET on the status URL
    completes with status 200 and a JSON body.  In every other case, an
    empty id, a failed request, an error status, a body that is not
    JSON, the session is exactly as before and the run neither sleeps
    nor asks for a rerun. *)
Theorem check_status_tab_failure_leaves_history requests clicked
    auto_refresh job_id s :
  let run := check_status_tab requests clicked auto_refresh job_id s in
  (∃ r status_data,
     clicked || auto_refresh = true ∧ job_id ≠ EmptyString ∧
     requests_get requests (status_url job_id) = Completed r ∧
     status_code r = 200%Z ∧ json r = Some status_data ∧
     run = on_status_ok auto_refresh job_id status_data s) ∨
  (state_of run = s ∧ (st_rerun ∉ effects_of run) ∧
   ∀ n, time_sleep n ∉ effects_of run).
Proof.
  cbv zeta. rewrite check_status_tab_cases.
  assert (∀ msg, (st_rerun ∉ [st_error msg]) ∧
                 ∀ n, time_sleep n ∉ [st_error msg]) as Herr.
  { intros msg. split; [|intros n]; by intros [=]%list_elem_of_singleton. }
  destruct (clicked || auto_refresh) eqn:Ec.
  2: { right. split_and!; [done| |intros n]; by intros ?%elem_of_nil. }
  destruct (truthy job_id) eqn:Ej.
  2: { right. split_and!; [done| |intros n];
       by intros [=]%list_elem_of_singleton. }
  destruct (requests_get requests _) as [r|e] eqn:Er.
  2: { right. unfold state_of, effects_of; cbn [fst snd].
       split_and!; [done| |intros n];
         by intros [[=]|[=]%list_elem_of_singleton]%elem_of_cons. }
  destruct (response_truthy r) eqn:Et; cbn [andb].
  2: { right. split; [done|]. apply Herr. }
  case_bool_decide as E200.
  2: { right. split; [done|]. apply Herr. }
  destruct (json r) as [sd|] eqn:Ejson.
  2: { right. split_and!; [done| |intros n]; by intros ?%elem_of_nil. }
  left. exists r, sd. apply truthy_true in Ej. done.
Qed.

(** ** What a status update can change *)

Lemma update_status_no_status job_id status_data s :
  status_data !! "status" = None →
  state_of (update_status job_id status_data s) = s.
Proof.
  intros Hv. unfold update_status, mbind, M_bind, get.
  rewrite update_first_run, Hv.
  destruct (find_job (objects s) job_id (job_history s)); [reflexivity|].
  destruct (user_key s) as [h|]; [|reflexivity].
  destruct (global_history s !! h) as [b|]; [|reflexivity].
  rewrite update_first_run, Hv. by destruct (find_job (objects s) job_id b).
Qed.

Lemma same_job_refl e : same_job e e.
Proof. by unfold same_job. Qed.

Lemma same_job_set_status v e : same_job e (set_status v e).
Proof. by unfold same_job. Qed.

Lemma same_job_trans e1 e2 e3 :
  same_job e1 e2 → same_job e2 e3 → same_job e1 e3.
Proof. unfold same_job. intros (?&?&?&?) (?&?&?&?). split_and!; congruence. Qed.

Lemma update_status_object job_id status_data s r e :
  objects s !! r = Some e →
  ∃ e', objects (state_of (update_status job_id status_data s)) !! r = Some e'
        ∧ same_job e e' ∧ (e' = e ∨ e_id e = PStr job_id).
Proof.
  intros He. destruct (status_data !! "status") as [v|] eqn:Ev.
  - rewrite (update_status_run _ _ _ _ Ev). unfold state_of; cbn [fst snd objects set_objects].
    destruct (lookup_updated_objects job_id v s r e He) as [H|[H Hid]].
    + exists e. split_and!; [done | apply same_job_refl | by left].
    + exists (set_status v e).
      split_and!; [done | apply same_job_set_status | by right].
  - rewrite (update_status_no_status _ _ _ Ev). exists e.
    split_and!; [done | apply same_job_refl | by left].
Qed.

(** X11.  Whatever the server answers, a run of the Check Status tab
    leaves the token, the user hash and every list of the two histories
    as they were, and every job dictionary keeps its id, title, company
    and submission time; a dictionary whose id differs from the id typed
    in is not changed at all. *)
Theorem check_status_tab_frame requests clicked auto_refresh job_id s :
  let s' := state_of (check_status_tab requests clicked auto_refresh job_id s)
  in
  api_token s' = api_token s ∧
  current_user_hash s' = current_user_hash s ∧
  job_history s' = job_history s ∧
  global_history s' = global_history s ∧
  length (objects s') = length (objects s) ∧
  ∀ r e, objects s !! r = Some e →
    ∃ e', objects s' !! r = Some e' ∧ same_job e e' ∧
          (e_id e ≠ PStr job_id → e' = e).
Proof.
  cbv zeta.
  assert (∀ x : (exn + ()) * session * list effect, state_of x = s →
            api_token (state_of x) = api_token s ∧
            current_user_hash (state_of x) = current_user_hash s ∧
            job_history (state_of x) = job_history s ∧
            global_history (state_of x) = global_history s ∧
            length (objects (state_of x)) = length (objects s) ∧
            ∀ r e, objects s !! r = Some e →
              ∃ e', objects (state_of x) !! r = Some e' ∧ same_job e e' ∧
                    (e_id e ≠ PStr job_id → e' = e)) as Hsame.
  { intros x ->. split_and!; try done. intros r e He. exists e.
    split_and!; [done | apply same_job_refl | done]. }
  rewrite check_status_tab_cases.
  destruct (clicked || auto_refresh); [|by apply Hsame].
  destruct (truthy job_id); [|by apply Hsame].
  destruct (requests_get requests _) as [r|e]; [|by apply Hsame].
  destruct (response_truthy r && bool_decide (status_code r = 200%Z));
    [|destruct (response_truthy r); by apply Hsame].
  destruct (json r) as [sd|]; [|by apply Hsame].
  destruct (on_status_ok_shape auto_refresh job_id sd s) as (r' & out & -> & _).
  change (state_of (r', state_of (update_status job_id sd s), out))
    with (state_of (update_status job_id sd s)).
  destruct (update_status_frame job_id sd s) as (Ht & Hj & Hg & Hu & Hl).
  split_and!; try done.
  intros r0 e He.
  destruct (update_status_object job_id sd s r0 e He) as (e' & H1 & H2 & H3).
  exists e'. split_and!; try done. intros Hne. by destruct H3.
Qed.

(** ** Error statuses *)

(** X12.  A response with an HTTP error status (400 to 599) is false as a
    Python value, so the branch [elif response:] that would show the
    status code and the body is skipped: after a valid submission, and
    after a status check, such a response is reported as
    [Failed to connect to the API], and the session is unchanged. *)
Theorem http_error_shown_as_connection_failure requests json_normalise now
    (f : upload_form) clicked auto_refresh job_id r s :
  error_status r →
  (is_Some (uploaded_file f) → f_title f ≠ EmptyString →
   f_company f ≠ EmptyString →
   requests_post requests (API_BASE_URL +:+ "/workflow") = Completed r →
   submit_job requests json_normalise now f s
   = (inr tt, s,
      (upload_data json_normalise f).2
        ++ [st_error "Failed to connect to the API"])) ∧
  (clicked || auto_refresh = true → job_id ≠ EmptyString →
   requests_get requests (status_url job_id) = Completed r →
   check_status_tab requests clicked auto_refresh job_id s
   = (inr tt, s, [st_error "Failed to connect to the API"])).
Proof.
  intros Herr%response_truthy_false. split.
  - intros [name Hf] Ht Hc Er.
    rewrite (submit_job_valid _ _ _ _ _ _ Hf Ht Hc). unfold submitted.
    by rewrite Er, Herr.
  - intros Hc Hj%truthy_true Er.
    by rewrite check_status_tab_cases, Hc, Hj, Er, Herr.
Qed.

Lemma http_error_shown_as_connection_failure_witness :
  let r := {| status_code := 404; text := "no such job"; json := None |} in
  let requests := {| requests_get := λ _, Completed r;
                     requests_post := λ _, Completed r |} in
  check_status_tab requests true false "job-1" initial
  = (inr tt, initial, [st_error "Failed to connect to the API"]).
Proof.
  intros r requests.
  assert (error_status r) as Hr by (unfold error_status; cbn; lia).
  assert ("job-1" ≠ EmptyString) as Hj by discriminate.
  apply (http_error_shown_as_connection_failure requests (λ _, None)
           EmptyString
           {| uploaded_file := None; f_title := EmptyString;
              f_company := EmptyString; f_entities := EmptyString;
              f_speakers := EmptyString; f_call_type := EmptyString;
              f_time_period := EmptyString; clean_audio := true;
              clean_transcript := true; speaker_diarization := true;
              fact_checking := false |}
           true false "job-1" r initial Hr); [reflexivity | exact Hj |
           reflexivity].
Defined.

(** ** Repeating and composing status updates *)

Lemma set_status_idem v e : set_status v (set_status v e) = set_status v e.
Proof. reflexivity. Qed.

Lemma store_status_twice v o1 o2 σ :
  store_status v o2 (store_status v o1
    (store_status v o2 (store_status v o1 σ)))
  = store_status v o2 (store_status v o1 σ).
Proof.
  apply list_eq. intros r. rewrite !lookup_store_status.
  destruct (σ !! r) as [e|]; repeat case_bool_decide; reflexivity.
Qed.

(** X13.  A status update is idempotent: running the two loops again with
    the same job id and the same payload leaves the session exactly as
    the first run left it, in every state (so what a repeated automatic
    check writes is what the first check wrote). *)
Theorem update_status_idempotent job_id status_data s :
  state_of (update_status job_id status_data
              (state_of (update_status job_id status_data s)))
  = state_of (update_status job_id status_data s).
Proof.
  destruct (status_data !! "status") as [v|] eqn:Ev.
  - rewrite !(update_status_run _ _ _ _ Ev). unfold state_of; cbn [fst snd].
    destruct s as [tok jh gh usr σ]. unfold set_objects; cbn. f_equal.
    unfold updated_objects, current_bucket, user_key; cbn.
    destruct (match usr with
              | Some h => if truthy h then Some h else None
              | None => None
              end ≫= λ h, gh !! h) as [b|]; cbn.
    + rewrite !find_job_store_status. apply store_status_twice.
    + rewrite !find_job_store_status. apply store_status_idem.
  - by rewrite !(update_status_no_status _ _ _ Ev).
Qed.

(** X14.  Recording a job and then updating its status: for a descriptor
    whose id is the string [job_id], after [save_job_to_history] and a
    status update for [job_id] with status [v], the first record of
    [job_history] is the recorded job with status [v], and so is the
    first record of the current user's bucket when a user is set.  For
    a descriptor whose id is not a string (a number, say) no status
    update changes the record, whatever id is typed in. *)
Theorem record_then_update now job_data job_id status_data v s :
  first_missing_key job_data = None →
  status_data !! "status" = Some v →
  let e := descriptor_entry now job_data in
  let s1 := after s (RecordJob now job_data) in
  let s2 := after s1 (UpdateStatus job_id status_data) in
  head (job_history s2) = Some (length (objects s)) ∧
  (job_data !! "id" = Some (PStr job_id) →
   head (records (objects s2) (job_history s2)) = Some (set_status v e) ∧
   ∀ h, user_key s = Some h →
        head (records (objects s2) (bucket_of s2 h))
        = Some (set_status v e)) ∧
  ((∀ x, job_data !! "id" ≠ Some (PStr x)) →
   objects s2 !! length (objects s) = Some e).
Proof.
  intros Hk Hv e s1 s2.
  assert (s1 = saved e s) as Hs1 by apply after_record_job, Hk.
  assert (objects s1 !! length (objects s) = Some e) as He.
  { rewrite Hs1, saved_objects, lookup_app_r, Nat.sub_diag by lia. done. }
  assert (job_history s1 = length (objects s) :: take 19 (job_history s))
    as Hj1 by (rewrite Hs1, saved_job_history; reflexivity).
  assert (job_history s2 = job_history s1 ∧
          global_history s2 = global_history s1) as [Hj Hg].
  { destruct (update_status_frame job_id status_data s1)
      as (_ & Hj & Hg & _). by split. }
  assert (objects s2 = updated_objects job_id v s1) as Ho2.
  { unfold s2, after; cbn [exec]. by rewrite (update_status_run _ _ _ _ Hv). }
  split_and!.
  - by rewrite Hj, Hj1.
  - intros Hid.
    assert (e_id e = PStr job_id) as Hide.
    { unfold e, descriptor_entry, entry_of; cbn. by rewrite Hid. }
    assert (find_job (objects s1) job_id (job_history s1)
            = Some (length (objects s))) as Hf.
    { rewrite Hj1. cbn [find_job]. rewrite He.
      by rewrite bool_decide_eq_true_2. }
    assert (objects s2 !! length (objects s) = Some (set_status v e)) as H2.
    { rewrite Ho2. unfold updated_objects. rewrite Hf.
      assert (store_status v (Some (length (objects s))) (objects s1)
                !! length (objects s) = Some (set_status v e)) as H1.
      { rewrite lookup_store_status, bool_decide_eq_true_2, He by done. done. }
      destruct (current_bucket s1) as [b|]; [|exact H1].
      rewrite lookup_store_status, H1. by case_bool_decide. }
    split.
    + rewrite Hj, Hj1, records_cons, H2. reflexivity.
    + intros h Hh. unfold bucket_of. rewrite Hg, Hs1, saved_global_history, Hh.
      rewrite lookup_insert_eq.
      change (head (records (objects s2)
                      (length (objects s)
                         :: take 99 (default [] (global_history s !! h))))
              = Some (set_status v e)).
      by rewrite records_cons, H2.
  - intros Hid.
    destruct (update_status_object job_id status_data s1 _ e He)
      as (e' & H1 & _ & [->|Hide]); [exact H1|].
    exfalso. unfold e, descriptor_entry, entry_of in Hide; cbn in Hide.
    destruct (job_data !! "id") as [a|] eqn:Ea; cbn in Hide;
      [|discriminate Hide].
    subst a. by apply (Hid job_id).
Qed.

Lemma record_then_update_witness :
  let s2 := run_ops [Authenticate "abc123";
                     RecordJob "2025-01-01 10:00:00" (job_descriptor "job-1");
                     UpdateStatus "job-1" (payload "job-1" "completed")]
              initial in
  head (records (objects s2) (job_history s2))
  = Some (entry_of "2025-01-01 10:00:00" (PStr "job-1") (PStr "Q4 Call")
            (PStr "Acme") (PStr "completed")).
Proof.
  intros s2.
  destruct (record_then_update "2025-01-01 10:00:00" (job_descriptor "job-1")
              "job-1" (payload "job-1" "completed") (PStr "completed")
              (after initial (Authenticate "abc123")) eq_refl eq_refl)
    as (_ & H & _).
  destruct (H eq_refl) as [H1 _]. exact H1.
Defined.

(** ** Nothing is deleted *)

Lemma after_objects_unchanged_cases s o :
  objects (after s o) = objects s ∨
  (∃ e, objects (after s o) = objects s ++ [e]) ∨
  (∃ job_id status_data,
     o = UpdateStatus job_id status_data).
Proof.
  destruct o as [token| |now jd|job_id sd|]; unfold after; cbn [exec].
  - rewrite authenticate_run. destruct (truthy token); [|by left].
    rewrite load_user_history_run. unfold state_of; cbn [fst snd].
    left. by destruct (current_bucket _).
  - by left.
  - rewrite save_job_to_history_cases.
    destruct (first_missing_key jd); [by left|].
    right; left. eexists. apply saved_objects.
  - right; right. eauto.
  - rewrite load_user_history_run. unfold state_of; cbn [fst snd].
    left. by destruct (current_bucket _).
Qed.

Lemma after_object s o r e :
  objects s !! r = Some e →
  ∃ e', objects (after s o) !! r = Some e' ∧ same_job e e' ∧
        ((∀ x, e_id e ≠ PStr x) → e' = e).
Proof.
  intros He.
  destruct (after_objects_unchanged_cases s o)
    as [->|[[e0 ->]|(job_id & sd & ->)]].
  - exists e. split_and!; [done | apply same_job_refl | done].
  - exists e. split_and!; [|apply same_job_refl | done].
    rewrite lookup_app_l; [done|]. eapply lookup_lt_Some, He.
  - destruct (update_status_object job_id sd s r e He) as (e' & H1 & H2 & H3).
    exists e'. split_and!; [done..|].
    intros Hid. destruct H3 as [->|H3]; [done|]. by destruct (Hid job_id).
Qed.

Lemma after_bucket_persists s o h :
  is_Some (global_history s !! h) → is_Some (global_history (after s o) !! h).
Proof.
  intros Hh.
  destruct o as [token| |now jd|job_id sd|]; unfold after; cbn [exec].
  - rewrite authenticate_run. destruct (truthy token); [|done].
    rewrite load_user_history_run. unfold state_of; cbn [fst snd].
    by destruct (current_bucket _).
  - done.
  - rewrite save_job_to_history_cases.
    destruct (first_missing_key jd); [done|]. unfold state_of; cbn [fst snd].
    rewrite saved_global_history. destruct (user_key s) as [h0|]; [|done].
    destruct (decide (h0 = h)) as [->|Hne].
    + rewrite lookup_insert_eq. by eexists.
    + by rewrite lookup_insert_ne.
  - destruct (update_status_frame job_id sd s) as (_ & _ & -> & _). done.
  - rewrite load_user_history_run. unfold state_of; cbn [fst snd].
    by destruct (current_bucket _).
Qed.

(** X15.  Nothing is ever deleted or rewritten: along any sequence of
    operations, from any state, every job dictionary stays in the store
    with its id, title, company and submission time (its status alone
    can change, and not even that when its id is not a string), and
    every user's bucket of the archive stays in the archive, signing out
    included. *)
Theorem run_ops_keeps_objects_and_buckets ops s :
  (∀ r e, objects s !! r = Some e →
     ∃ e', objects (run_ops ops s) !! r = Some e' ∧ same_job e e' ∧
           ((∀ x, e_id e ≠ PStr x) → e' = e)) ∧
  (∀ h, is_Some (global_history s !! h) →
        is_Some (global_history (run_ops ops s) !! h)).
Proof.
  revert s. induction ops as [|o ops IH]; intros s.
  - split; [|done]. intros r e He. exists e.
    split_and!; [done | apply same_job_refl | done].
  - destruct (IH (after s o)) as [IH1 IH2]. split.
    + intros r e He.
      destruct (after_object s o r e He) as (e1 & H1 & Hs1 & Hk1).
      destruct (IH1 r e1 H1) as (e2 & H2 & Hs2 & Hk2).
      exists e2. split_and!; [exact H2 | by eapply same_job_trans|].
      intros Hid. rewrite <- (Hk1 Hid). apply Hk2.
      intros x. rewrite (Hk1 Hid). apply Hid.
    + intros h Hh. apply IH2, after_bucket_persists, Hh.
Qed.

(** ** The archive of a reachable session *)

Lemma reachable_hashes s :
  reachable s →
  (∀ h, current_user_hash s = Some h →
        ∃ token, token ≠ EmptyString ∧ h = get_user_hash token) ∧
  (∀ h, is_Some (global_history s !! h) →
        ∃ token, token ≠ EmptyString ∧ h = get_user_hash token).
Proof.
  induction 1 as [|s o _ [IHu IHg]].
  - split; [intros h [=] | intros h [b Hb]; change ((∅ : gmap string (list ref)) !! h = Some b) in Hb;
             by rewrite lookup_empty in Hb].
  - destruct o as [token| |now jd|job_id sd|]; unfold after; cbn [exec].
    + rewrite authenticate_run. destruct (truthy token) eqn:Ht; [|done].
      rewrite load_user_history_run. unfold state_of; cbn [fst snd].
      apply truthy_true in Ht.
      assert (∀ h, Some (get_user_hash token) = Some h →
                ∃ t, t ≠ EmptyString ∧ h = get_user_hash t) as Hu
        by (intros h [= <-]; eauto).
      by destruct (current_bucket _).
    + split; [intros h [=] | exact IHg].
    + rewrite save_job_to_history_cases.
      destruct (first_missing_key jd); [done|]. unfold state_of; cbn [fst snd].
      rewrite saved_current_user_hash. split; [exact IHu|].
      intros h [b [[Hk _]|[_ Hb]]%saved_bucket_lookup]; [|by apply IHg].
      apply IHu. unfold user_key in Hk.
      destruct (current_user_hash s) as [h'|]; [|done].
      by destruct (truthy h'); simplify_eq.
    + destruct (update_status_frame job_id sd s) as (_ & _ & -> & -> & _).
      done.
    + rewrite load_user_history_run. unfold state_of; cbn [fst snd].
      by destruct (current_bucket _).
Qed.

(** X16.  In every reachable session, each bucket of the archive is
    filed under the hash of a non-empty token, holds at most 100 jobs, no
    job twice, every one of them an object of the store, and shares no
    job with the bucket of another user. *)
Theorem archive_buckets s h b :
  reachable s → global_history s !! h = Some b →
  (∃ token, token ≠ EmptyString ∧ h = get_user_hash token) ∧
  length b ≤ 100 ∧ NoDup b ∧
  (∀ r, r ∈ b → is_Some (objects s !! r)) ∧
  (∀ h' b' r, h' ≠ h → global_history s !! h' = Some b' → r ∈ b → r ∉ b').
Proof.
  intros Hs Hb. pose proof (reachable_wf s Hs) as Hwf.
  split_and!.
  - by apply (reachable_hashes s Hs).
  - by apply (wf_bucket_length s Hwf h).
  - by apply (wf_bucket_nodup s Hwf h).
  - intros r Hr. apply lookup_lt_is_Some.
    by apply (wf_bucket_valid s Hwf h b).
  - intros h' b' r Hne Hb' Hr.
    apply (wf_bucket_disjoint s Hwf h h' b b' r); auto.
Qed.

Lemma archive_buckets_witness :
  let s := run_ops (relogin_trace "abc123" 101) initial in
  ∃ b, global_history s !! get_user_hash "abc123" = Some b ∧
       length b ≤ 100 ∧ NoDup b.
Proof.
  intros s. exists (reverse (seq 1 100)).
  assert (global_history s !! get_user_hash "abc123"
          = Some (reverse (seq 1 100))) as Hb by (vm_compute; reflexivity).
  destruct (archive_buckets s _ _
              (reachable_run_ops _ _ reachable_initial) Hb)
    as (_ & Hl & Hn & _).
  exact (conj Hb (conj Hl Hn)).
Defined.

(** ** The chain of automatic checks *)


(** ** Runs of the script *)

Lemma run_handler_state m rest s :
  session_after (run_handler m rest s) = state_of (m s) ∨
  (result_of (m s) = inr tt ∧ (st_rerun ∉ effects_of (m s)) ∧
   session_after (run_handler m rest s) = session_after (rest (state_of (m s)))).
Proof.
  unfold run_handler, session_after, state_of, result_of, effects_of.
  destruct (m s) as [[[e|[]] s'] out]; cbn [fst snd]; [by left|].
  case_bool_decide as Hr; [by left|]. right.
  by destruct (rest s') as [[r s''] out'].
Qed.

Lemma submit_job_state requests json_normalise now f s :
  state_of (submit_job requests json_normalise now f s) = s ∨
  ∃ job_data, first_missing_key job_data = None ∧
    state_of (submit_job requests json_normalise now f s)
    = after s (RecordJob now job_data).
Proof.
  destruct (uploaded_file f) as [name|] eqn:Hf;
    [|left; unfold submit_job; by rewrite Hf].
  destruct (decide (f_title f = EmptyString)) as [Ht|Ht].
  { left. unfold submit_job. by rewrite Hf, Ht. }
  destruct (decide (f_company f = EmptyString)) as [Hc|Hc].
  { left. unfold submit_job. apply truthy_true in Ht. by rewrite Hf, Ht, Hc. }
  rewrite (submit_job_valid _ _ _ _ _ _ Hf Ht Hc).
  destruct (submitted_state requests now (upload_data json_normalise f).2 s)
    as [H|(r & jd & _ & _ & _ & Hk & ->)]; [by left|].
  right. exists jd. split; [done|]. by rewrite after_record_job.
Qed.

Lemma check_status_tab_state requests clicked auto_refresh job_id s :
  state_of (check_status_tab requests clicked auto_refresh job_id s) = s ∨
  ∃ status_data,
    state_of (check_status_tab requests clicked auto_refresh job_id s)
    = after s (UpdateStatus job_id status_data).
Proof.
  rewrite check_status_tab_cases.
  destruct (clicked || auto_refresh); [|by left].
  destruct (truthy job_id); [|by left].
  destruct (requests_get requests _) as [r|e]; [|by left].
  destruct (response_truthy r && bool_decide (status_code r = 200%Z));
    [|destruct (response_truthy r); by left].
  destruct (json r) as [sd|]; [|by left].
  right. exists sd.
  by destruct (on_status_ok_shape auto_refresh job_id sd s)
    as (r' & out & -> & _).
Qed.

Lemma download_transcript_state requests timestamp download_job_id
    format_type b1 b2 b3 b4 b5 s :
  state_of ((download_transcript requests timestamp download_job_id
               format_type b1 b2 b3 b4 b5;; mret tt) s) = s.
Proof.
  unfold mbind, M_bind. rewrite download_transcript_cases.
  destruct (truthy download_job_id); [|reflexivity].
  destruct (requests_get requests _) as [r|e]; [|reflexivity].
  destruct (response_truthy r && bool_decide (status_code r = 200%Z));
    [reflexivity|].
  destruct (response_truthy r); reflexivity.
Qed.

Lemma tabs_ops env w s :
  ∃ ops, session_after (tabs env w s) = run_ops ops s ∧ Forall tab_op ops.
Proof.
  unfold tabs.
  set (m1 := if w_submit w then _ else _).
  set (m2 := check_status_tab _ _ _ _).
  set (m3 := if w_download w then _ else _).
  assert (∃ ops, state_of (m1 s) = run_ops ops s ∧ Forall tab_op ops)
    as (ops1 & E1 & F1).
  { unfold m1. destruct (w_submit w); [|by exists []].
    destruct (submit_job_state (env_requests env) (env_json_normalise env)
                (env_now env) (w_upload w) s) as [->|(jd & Hk & ->)];
      [by exists [] | exists [RecordJob (env_now env) jd]].
    split; [done | by repeat constructor]. }
  assert (∀ s1, ∃ ops, state_of (m2 s1) = run_ops ops s1 ∧ Forall tab_op ops)
    as H2.
  { intros s1. unfold m2.
    destruct (check_status_tab_state (env_requests env) (w_check w)
                (w_auto_refresh w) (w_job_id w) s1) as [->|(sd & ->)];
      [by exists [] | exists [UpdateStatus (w_job_id w) sd]].
    split; [done | by repeat constructor]. }
  assert (∀ s2, state_of (m3 s2) = s2) as H3.
  { intros s2. unfold m3. destruct (w_download w); [|done].
    apply download_transcript_state. }
  destruct (run_handler_state m1
              (run_handler m2 (run_handler m3 end_of_script)) s)
    as [->|(_ & _ & ->)]; [by exists ops1|].
  destruct (H2 (state_of (m1 s))) as (ops2 & E2 & F2).
  assert (run_ops (ops1 ++ ops2) s = state_of (m2 (state_of (m1 s)))) as E12.
  { unfold run_ops in *. by rewrite fold_left_app, <- E1, <- E2. }
  destruct (run_handler_state m2 (run_handler m3 end_of_script)
              (state_of (m1 s))) as [->|(_ & _ & ->)].
  { exists (ops1 ++ ops2). split; [done | by apply Forall_app]. }
  destruct (run_handler_state m3 end_of_script (state_of (m2 (state_of (m1 s)))))
    as [->|(_ & _ & ->)]; rewrite ?H3;
    exists (ops1 ++ ops2); (split; [done | by apply Forall_app]).
Qed.

Lemma sidebar_cases w s :
  sidebar w s
  = match api_token s with
    | None =>
        if w_authenticate w then authenticate (w_api_key_input w) s
        else (inr tt, s, [])
    | Some _ => if w_logout w then logout s else (inr tt, s, [])
    end.
Proof.
  unfold sidebar, mbind, M_bind, get.
  destruct (api_token s).
  - destruct (w_logout w); [|reflexivity]. by rewrite logout_run.
  - destruct (w_authenticate w); [|reflexivity].
    by destruct (authenticate (w_api_key_input w) s) as [[[?|?] ?] ?].
Qed.

(** What a run of the script amounts to on the session: nothing or a
    sign-in while signed out; a sign-out or operations of the tabs while
    signed in. *)
Lemma script_run_ops env w s :
  ∃ ops, session_after (script_run env w s) = run_ops ops s ∧
    match api_token s with
    | None => ops = [] ∨ ops = [Authenticate (w_api_key_input w)]
    | Some _ => ops = [Logout] ∨ Forall tab_op ops
    end.
Proof.
  unfold script_run, run_handler. rewrite sidebar_cases.
  destruct (api_token s) as [t|] eqn:Et.
  - destruct (w_logout w).
    + rewrite logout_run. rewrite bool_decide_eq_true_2 by left.
      exists [Logout]. split; [reflexivity | by left].
    + rewrite bool_decide_eq_false_2 by (by intros ?%elem_of_nil).
      destruct (recent_jobs_ok s); [|exists []; split; [done | by right]].
      rewrite Et. destruct (tabs_ops env w s) as (ops & E & F).
      exists ops. split; [|by right].
      rewrite <- E. unfold session_after.
      by destruct (tabs env w s) as [[? ?] ?].
  - destruct (w_authenticate w).
    + rewrite authenticate_run.
      destruct (truthy (w_api_key_input w)) eqn:Ht.
      * rewrite bool_decide_eq_true_2 by (right; left).
        exists [Authenticate (w_api_key_input w)]. split; [|by right].
        unfold run_ops, after; cbn [fold_left exec].
        by rewrite authenticate_run, Ht.
      * rewrite bool_decide_eq_false_2
          by (by intros [=]%list_elem_of_singleton).
        exists []. split; [|by left].
        destruct (recent_jobs_ok s); [|done]. by rewrite Et.
    + rewrite bool_decide_eq_false_2 by (by intros ?%elem_of_nil).
      exists []. split; [|by left].
      destruct (recent_jobs_ok s); [|done]. by rewrite Et.
Qed.

Lemma app_reachable_reachable s : app_reachable s → reachable s.
Proof.
  induction 1 as [|s env w _ IH]; [constructor|].
  destruct (script_run_ops env w s) as (ops & -> & _).
  by apply reachable_run_ops.
Qed.

Lemma prefix_take_cons (n : ref) (l b : list ref) :
  l `prefix_of` b → take 20 (n :: l) `prefix_of` take 100 (n :: b).
Proof.
  intros Hl.
  assert (take 20 (n :: l) `prefix_of` n :: b) as [k Hk].
  { etrans; [apply prefix_take | by apply prefix_cons]. }
  rewrite Hk, take_app.
  rewrite (take_ge (take 20 (n :: l)) 100) by (rewrite length_take; lia).
  by apply prefix_app_r.
Qed.

Lemma user_key_hash s token :
  current_user_hash s = Some (get_user_hash token) →
  user_key s = Some (get_user_hash token).
Proof.
  intros Hu. unfold user_key. rewrite Hu.
  by rewrite (proj2 (truthy_true _) (get_user_hash_nonempty token)).
Qed.

Lemma app_inv_authenticate s token :
  app_inv s → api_token s = None → app_inv (after s (Authenticate token)).
Proof.
  unfold app_inv. intros Hinv Hn. rewrite Hn in Hinv.
  destruct Hinv as [Hj Hu].
  unfold after; cbn [exec]. rewrite authenticate_run.
  destruct (truthy token) eqn:Ht; unfold state_of; cbn [fst snd];
    [|by rewrite Hn].
  rewrite load_user_history_run; cbn [fst snd]. unfold current_bucket.
  rewrite user_key_authenticated. cbn [mbind option_bind].
  change (global_history (authenticated token s)) with (global_history s).
  apply truthy_true in Ht.
  destruct (global_history s !! get_user_hash token) as [b|] eqn:Eb;
    cbn [api_token set_job_history authenticated set_current_user_hash
         set_api_token current_user_hash job_history];
    (split_and!; [done..|]).
  - unfold bucket_of; cbn. by rewrite Eb.
  - rewrite Hj. apply prefix_nil.
Qed.

Lemma app_inv_logout s : app_inv (after s Logout).
Proof. by unfold app_inv. Qed.

Lemma app_inv_tab_op s o :
  app_inv s → is_Some (api_token s) → tab_op o →
  app_inv (after s o) ∧ api_token (after s o) = api_token s.
Proof.
  unfold app_inv. intros Hinv [t Ht] Ho. rewrite Ht in Hinv.
  destruct Hinv as (Hne & Hu & Hp).
  destruct o as [| |now jd|job_id sd|]; try done.
  - cbn in Ho. rewrite (after_record_job _ _ _ Ho).
    rewrite saved_api_token, Ht, saved_current_user_hash, saved_job_history.
    split; [|done]. split_and!; [done..|].
    unfold bucket_of. rewrite saved_global_history, (user_key_hash _ _ Hu).
    rewrite lookup_insert_eq. by apply prefix_take_cons.
  - unfold after; cbn [exec].
    destruct (update_status_frame job_id sd s) as (-> & -> & Hg & -> & _).
    rewrite Ht. split; [|done]. split_and!; [done..|].
    unfold bucket_of. by rewrite Hg.
Qed.

Lemma app_inv_tab_ops ops s :
  app_inv s → is_Some (api_token s) → Forall tab_op ops →
  app_inv (run_ops ops s).
Proof.
  intros Hinv Ht Hops. revert s Hinv Ht.
  induction Hops as [|o ops Ho _ IH]; intros s Hinv Ht; [done|].
  destruct (app_inv_tab_op s o Hinv Ht Ho) as [H1 H2].
  apply (IH (after s o) H1). by rewrite H2.
Qed.

Lemma app_reachable_inv s : app_reachable s → app_inv s.
Proof.
  induction 1 as [|s env w _ IH]; [by unfold app_inv|].
  destruct (script_run_ops env w s) as (ops & -> & Hops).
  destruct (api_token s) as [t|] eqn:Et.
  - destruct Hops as [->|Hops]; [apply app_inv_logout|].
    apply app_inv_tab_ops; [done | by rewrite Et | done].
  - destruct Hops as [->| ->]; [done|]. by apply app_inv_authenticate.
Qed.

Lemma records_prefix σ (l b : list ref) :
  l `prefix_of` b → records σ l `prefix_of` records σ b.
Proof. intros [k ->]. rewrite records_app. by eexists. Qed.

(** X18.  In every session the script goes through: while signed out the
    session list is empty and no user hash is set; while signed in the
    token is not empty, the user hash is the hash of the token, and
    [job_history] is the beginning of that user's bucket of the archive:
    every job of the session is in the archive, in the same order, and
    the two show the same records. *)
Theorem app_session_invariant s :
  app_reachable s →
  match api_token s with
  | None => job_history s = [] ∧ current_user_hash s = None
  | Some token =>
      token ≠ EmptyString ∧
      current_user_hash s = Some (get_user_hash token) ∧
      job_history s `prefix_of` bucket_of s (get_user_hash token) ∧
      records (objects s) (job_history s)
        `prefix_of` records (objects s) (bucket_of s (get_user_hash token))
  end.
Proof.
  intros Hs%app_reachable_inv. unfold app_inv in Hs.
  destruct (api_token s); [|done].
  destruct Hs as (? & ? & ?). split_and!; [done..|]. by apply records_prefix.
Qed.

Lemma app_reachable_signed_in_with_job token job_data :
  app_reachable (signed_in_with_job token job_data).
Proof. unfold signed_in_with_job. do 2 apply app_reachable_run. constructor. Qed.

Lemma app_session_invariant_witness :
  let s := signed_in_with_job "abc123" (job_descriptor "job-1") in
  api_token s = Some "abc123" ∧
  job_history s = [0] ∧ bucket_of s (get_user_hash "abc123") = [0] ∧
  job_history s `prefix_of` bucket_of s (get_user_hash "abc123").
Proof.
  intros s.
  pose proof (app_session_invariant s
                (app_reachable_signed_in_with_job _ _)) as H.
  assert (api_token s = Some "abc123") as Ht by (vm_compute; reflexivity).
  rewrite Ht in H. destruct H as (_ & _ & Hp & _).
  split_and!; [done | by vm_compute | by vm_compute | exact Hp].
Defined.

(** ** Isolation of users *)

Lemma find_job_in_bucket σ job_id (l b : list ref) r :
  l `prefix_of` b → find_job σ job_id l = Some r → r ∈ b.
Proof.
  intros [k ->] [Hr _]%find_job_Some. apply elem_of_app. by left.
Qed.

(** X19.  In a session of the script, a status check by the signed-in
    user never alters what another user's bucket shows, whatever job id
    is typed in and whatever the server answers. *)
Theorem app_status_check_isolated requests clicked auto_refresh job_id s
    token h' b' :
  app_reachable s → api_token s = Some token →
  h' ≠ get_user_hash token → global_history s !! h' = Some b' →
  records
    (objects (state_of (check_status_tab requests clicked auto_refresh
                          job_id s))) b'
  = records (objects s) b'.
Proof.
  intros Hs Ht Hne Hb'.
  pose proof (app_reachable_inv s Hs) as Hinv. unfold app_inv in Hinv.
  rewrite Ht in Hinv. destruct Hinv as (_ & Hu & Hp).
  pose proof (reachable_wf s (app_reachable_reachable s Hs)) as Hwf.
  assert (∀ r, r ∈ bucket_of s (get_user_hash token) → r ∉ b') as Hdisj.
  { intros r Hr. unfold bucket_of in Hr.
    destruct (global_history s !! get_user_hash token) as [b|] eqn:Eb;
      [|by apply elem_of_nil in Hr].
    apply (wf_bucket_disjoint s Hwf (get_user_hash token) h' b b' r); auto. }
  destruct (check_status_tab_state requests clicked auto_refresh job_id s)
    as [->|[sd ->]]; [done|].
  unfold after; cbn [exec].
  destruct (sd !! "status") as [v|] eqn:Ev;
    [|by rewrite (update_status_no_status _ _ _ Ev)].
  rewrite (update_status_run _ _ _ _ Ev). unfold state_of; cbn [fst snd].
  cbn [objects set_objects]. unfold updated_objects, current_bucket.
  rewrite (user_key_hash _ _ Hu). cbn [mbind option_bind].
  assert (records
            (store_status v (find_job (objects s) job_id (job_history s))
               (objects s)) b' = records (objects s) b') as H1.
  { apply records_store_status_other. intros r Hr.
    apply Hdisj. by eapply find_job_in_bucket. }
  destruct (global_history s !! get_user_hash token) as [b|] eqn:Eb;
    [|exact H1].
  rewrite records_store_status_other; [exact H1|].
  intros r [Hr _]%find_job_Some. apply Hdisj. unfold bucket_of.
  by rewrite Eb.
Qed.

Lemma app_status_check_isolated_witness :
  let s := second_user_session "abc123" "xyz789" (job_descriptor "job-1") in
  let s' := state_of (check_status_tab
                        (server_of (payload "job-1" "completed"))
                        true false "job-1" s) in
  records (objects s') [0] = records (objects s) [0].
Proof.
  intros s s'.
  assert (app_reachable s) as Hs.
  { unfold s, second_user_session. do 2 apply app_reachable_run.
    apply app_reachable_signed_in_with_job. }
  assert (get_user_hash "abc123" ≠ get_user_hash "xyz789") as Hne
    by (vm_compute; discriminate).
  apply (app_status_check_isolated _ true false "job-1" s "xyz789"
           (get_user_hash "abc123") [0] Hs).
  - vm_compute. reflexivity.
  - exact Hne.
  - vm_compute. reflexivity.
Defined.

(** ** Signing in, being signed out, signing out *)

Lemma recent_jobs_ok_empty s : job_history s = [] → recent_jobs_ok s = true.
Proof. intros H. unfold recent_jobs_ok. by rewrite H. Qed.

(** X20.  Signing in through the script: pressed while signed out with a
    non-empty token, the Authenticate button ends the run with a rerun,
    before the tabs; the token and its hash are stored, the archive and
    the store are untouched, and [job_history] becomes that user's
    bucket, which is empty when the user has none (in a session of the
    script nothing is left over from before). *)
Theorem script_sign_in env w s :
  app_reachable s → api_token s = None →
  w_authenticate w = true → w_api_key_input w ≠ EmptyString →
  let token := w_api_key_input w in
  let s' := session_after (script_run env w s) in
  script_run env w s
  = (rerun_requested, s',
     [st_success "✓ Authenticated successfully!"; st_rerun]) ∧
  api_token s' = Some token ∧
  current_user_hash s' = Some (get_user_hash token) ∧
  job_history s' = bucket_of s (get_user_hash token) ∧
  global_history s' = global_history s ∧
  objects s' = objects s.
Proof.
  intros Hs Hn Ha Ht%truthy_true token s'.
  pose proof (app_reachable_inv s Hs) as Hinv. unfold app_inv in Hinv.
  rewrite Hn in Hinv. destruct Hinv as [Hj Hu].
  assert (script_run env w s
          = (rerun_requested, after s (Authenticate token),
             [st_success "✓ Authenticated successfully!"; st_rerun])) as E.
  { unfold script_run, run_handler. rewrite sidebar_cases, Hn, Ha.
    unfold after, token; cbn [exec]. rewrite !authenticate_run, Ht.
    by rewrite bool_decide_eq_true_2 by (right; left). }
  assert (s' = after s (Authenticate token)) as -> by (unfold s'; by rewrite E).
  destruct (after_authenticate token s Ht) as (H1 & H2 & _ & H4 & H5 & H6).
  split_and!; try done.
  rewrite H6, Hj. reflexivity.
Qed.

Lemma script_sign_in_witness :
  let s := session_after
             (script_run (sample_env (accepting_server ∅)) logout_click
                (signed_in_with_job "abc123" (job_descriptor "job-1"))) in
  let s' := session_after
              (script_run (sample_env (accepting_server ∅))
                 (sign_in_click "abc123") s) in
  job_history s = [] ∧ job_history s' = [0] ∧
  job_history (session_after
                 (script_run (sample_env (accepting_server ∅))
                    (sign_in_click "xyz789") s)) = [].
Proof.
  intros s s'.
  assert (app_reachable s) as Hs.
  { unfold s. apply app_reachable_run, app_reachable_signed_in_with_job. }
  assert (api_token s = None) as Hn by reflexivity.
  split_and!; [reflexivity| |].
  - destruct (script_sign_in (sample_env (accepting_server ∅))
                (sign_in_click "abc123") s Hs Hn eq_refl)
      as (_ & _ & _ & Hj & _); [discriminate|].
    unfold s'. rewrite Hj. vm_compute. reflexivity.
  - destruct (script_sign_in (sample_env (accepting_server ∅))
                (sign_in_click "xyz789") s Hs Hn eq_refl)
      as (_ & _ & _ & Hj & _); [discriminate|].
    rewrite Hj. vm_compute. reflexivity.
Defined.

(** X21.  While signed out the script does nothing but ask for a token:
    unless Authenticate is pressed with a non-empty token, the run stops
    at the check before the tabs with the session unchanged, whatever
    the other widgets hold; no handler of a tab runs and the outcome
    does not depend on the network. *)
Theorem script_signed_out_inert env w s :
  app_reachable s → api_token s = None →
  w_authenticate w = false ∨ w_api_key_input w = EmptyString →
  script_run env w s
  = (stopped, s,
     (if w_authenticate w
      then [st_error "Please enter a valid API token"] else [])
       ++ [please_authenticate]).
Proof.
  intros Hs Hn Hw.
  pose proof (app_reachable_inv s Hs) as Hinv. unfold app_inv in Hinv.
  rewrite Hn in Hinv. destruct Hinv as [Hj Hu].
  unfold script_run, run_handler. rewrite sidebar_cases, Hn.
  destruct (w_authenticate w) eqn:Ea.
  - destruct Hw as [?|Hw]; [done|]. rewrite authenticate_run, Hw.
    cbn [truthy]. rewrite bool_decide_eq_false_2
      by (by intros [=]%list_elem_of_singleton).
    by rewrite (recent_jobs_ok_empty s Hj), Hn.
  - rewrite bool_decide_eq_false_2 by (by intros ?%elem_of_nil).
    by rewrite (recent_jobs_ok_empty s Hj), Hn.
Qed.

Lemma script_signed_out_inert_witness :
  script_run (sample_env (server_of (payload "job-1" "processing")))
    submit_click initial
  = (stopped, initial, [please_authenticate]).
Proof.
  apply (script_signed_out_inert
           (sample_env (server_of (payload "job-1" "processing")))
           submit_click initial app_reachable_initial eq_refl).
  by left.
Defined.

(** X22.  Pressing Logout while signed in ends the run at once with a
    rerun: token, user hash and session list are cleared, the archive
    and the store are as they were, and nothing else of the script runs
    in that run, the panel of recent jobs and the tabs included, so no
    request is sent whatever the other widgets hold. *)
Theorem script_sign_out env w s :
  is_Some (api_token s) → w_logout w = true →
  let s' := session_after (script_run env w s) in
  script_run env w s = (rerun_requested, s', [st_rerun]) ∧
  api_token s' = None ∧ current_user_hash s' = None ∧ job_history s' = [] ∧
  global_history s' = global_history s ∧ objects s' = objects s.
Proof.
  intros [t Ht] Hl. cbv zeta.
  unfold script_run, run_handler. rewrite sidebar_cases, Ht, Hl, logout_run.
  by rewrite bool_decide_eq_true_2 by left.
Qed.

Lemma script_sign_out_witness :
  let s := signed_in_with_job "abc123" (job_descriptor "job-1") in
  let s' := session_after
              (script_run (sample_env (accepting_server ∅)) logout_click s) in
  job_history s = [0] ∧ job_history s' = [] ∧
  bucket_of s' (get_user_hash "abc123") = [0].
Proof.
  intros s s'.
  assert (is_Some (api_token s)) as Ht by (by eexists).
  destruct (script_sign_out (sample_env (accepting_server ∅)) logout_click s
              Ht eq_refl) as (_ & _ & _ & Hj & Hg & _).
  split_and!; [by vm_compute | exact Hj |].
  unfold bucket_of. fold s' in Hg. rewrite Hg. by vm_compute.
Defined.

(** X23.  A job whose title is not a string blocks the tabs: while such a
    job is among the first five of [job_history], every run in which
    Logout is not pressed ends in the panel of recent jobs
    ([len(job['title'])] raises [TypeError]) with the session unchanged,
    before the check for the token and before every tab. *)
Theorem non_string_title_blocks_tabs env w s :
  is_Some (api_token s) → w_logout w = false → recent_jobs_ok s = false →
  script_run env w s = (uncaught_type_error, s, []).
Proof.
  intros [t Ht] Hl Hp.
  unfold script_run, run_handler. rewrite sidebar_cases, Ht, Hl.
  rewrite bool_decide_eq_false_2 by (by intros ?%elem_of_nil).
  by rewrite Hp.
Qed.

Lemma non_string_title_blocks_tabs_witness :
  let s := signed_in_with_job "abc123" (untitled_descriptor "job-1") in
  app_reachable s ∧
  script_run (sample_env (server_of (payload "job-1" "completed")))
    submit_click s
  = (uncaught_type_error, s, []).
Proof.
  intros s. split; [apply app_reachable_signed_in_with_job|].
  apply non_string_title_blocks_tabs; [by eexists | reflexivity|].
  vm_compute. reflexivity.
Defined.

Lemma job_history_at_most_100_witness :
  length (job_history (run_ops (relogin_trace "abc123" 101) initial)) ≤ 100.
Proof.
  apply job_history_at_most_100, reachable_run_ops, reachable_initial.
Defined.
